(** * Cubature Kalman filter of kkl::alg (cubature_kalman_filter.hpp)

    A shallow embedding of the class template [CubatureKalmanFilterX<T, System>]
    and the properties of its constructor, [predict], [correct],
    [computeCubaturePoints] and [ensurePositiveFinite].

    The scalar type [T] and the system model [System] are template
    parameters of the class: [T] is a type with the operations of the
    class [Scalar], the system a record of its two functions.  Eigen's
    Cholesky factorisation and matrix inverse are library routines, used as
    black boxes.  Eigen checks sizes and indices with run-time assertions;
    a failed assertion ends the call without a result, which is the [Abort]
    outcome below (with assertions compiled out the behaviour at such a
    point is undefined, so [Abort] also stands for "no defined result"). *)

From Stdlib Require Import List ZArith Lia Bool Arith PeanoNat.
From Stdlib Require Import Ring Field.
From Stdlib Require QArith Qcanon.
From Stdlib Require PrimFloat.
Import ListNotations.

Set Implicit Arguments.

(* ================================================================== *)
(** ** Outcomes of a call *)

Inductive failure : Set :=
| size_mismatch        (* Eigen: operands or destination of different sizes *)
| index_out_of_range   (* Eigen: row, column, block or coefficient index *)
| invalid_size         (* Eigen: negative size; int arithmetic out of range *)
| assertion_failed.    (* assert(...) of the source *)

Inductive outcome (A : Type) : Type :=
| Done (a : A)
| Abort (e : failure).

Arguments Done {A} a.
Arguments Abort {A} e.

Definition bind {A B : Type} (c : outcome A) (k : A -> outcome B) : outcome B :=
  match c with
  | Done a => k a
  | Abort e => Abort e
  end.

Notation "x <- c ;; k" := (bind c (fun x => k))
  (at level 61, c at next level, right associativity).

Definition check (b : bool) (e : failure) : outcome unit :=
  if b then Done tt else Abort e.

Definition completes {A : Type} (c : outcome A) : Prop :=
  exists a, c = Done a.

Definition aborts {A : Type} (c : outcome A) : Prop :=
  exists e, c = Abort e.

(** [for (int i = start; i < start + count; i++) acc = body(i, acc);] *)
Fixpoint for_loop {A : Type} (start count : nat)
         (body : nat -> A -> outcome A) (acc : A) : outcome A :=
  match count with
  | O => Done acc
  | S count' => acc' <- body start acc ;; for_loop (S start) count' body acc'
  end.

(* ================================================================== *)
(** ** The scalar type [T] *)

(** What the class template asks of its scalar parameter.  [of_Z] is the
    conversion of an [int] (through [double]) to [T]. *)
Class Scalar (T : Type) : Type := {
  s0 : T;
  s1 : T;
  sadd : T -> T -> T;
  ssub : T -> T -> T;
  smul : T -> T -> T;
  sdiv : T -> T -> T;
  sopp : T -> T;
  sinv : T -> T;
  ssqrt : T -> T;
  of_Z : Z -> T
}.

(** Scalars whose arithmetic is exact: a field of characteristic zero in
    which [of_Z] is the canonical embedding of the integers. *)
Class ExactScalar (T : Type) {Sc : Scalar T} : Prop := {
  scalar_field : field_theory s0 s1 sadd smul ssub sopp sdiv sinv (@eq T);
  of_Z_0 : of_Z 0 = s0;
  of_Z_succ : forall z, (0 <= z)%Z -> of_Z (z + 1) = sadd (of_Z z) s1;
  of_Z_pos : forall z, (0 < z)%Z -> of_Z z <> s0
}.

Arguments ExactScalar T {Sc}.

(* ================================================================== *)
(** ** Dense vectors and matrices (Eigen::Matrix with dynamic sizes) *)

Section Dense.

Context {T : Type} {Sc : Scalar T}.

(** [VectorXt], and the row and column blocks of a matrix: every
    expression that Eigen types as a vector at compile time.  Whether a
    vector stands as a row or as a column is fixed where it is used
    ([as_row], [as_col]); Eigen transposes silently when a row vector is
    assigned to a column vector or the other way round. *)
Definition Vector : Type := list T.

(** [MatrixXt]: sizes and row-major coefficients. *)
Record Matrix : Type := mkMatrix {
  rows : nat;
  cols : nat;
  coeffs : list (list T)
}.

Definition tabulate {A : Type} (n : nat) (g : nat -> A) : list A :=
  map g (seq 0 n).

Definition mk (r c : nat) (g : nat -> nat -> T) : Matrix :=
  mkMatrix r c (tabulate r (fun i => tabulate c (fun j => g i j))).

Definition get (m : Matrix) (i j : nat) : T :=
  nth j (nth i (coeffs m) []) s0.

Definition vnth (v : Vector) (i : nat) : T := nth i v s0.

(** [MatrixXt()] *)
Definition empty_matrix : Matrix := mk 0 0 (fun _ _ => s0).

(** [MatrixXt::Zero(r, c)], and [setZero()] on an r x c matrix *)
Definition mzero (r c : nat) : Matrix := mk r c (fun _ _ => s0).

(** [VectorXt::Zero(n)] *)
Definition vzero (n : nat) : Vector := repeat s0 n.

(** [v[i]] *)
Definition vget (v : Vector) (i : nat) : outcome T :=
  match nth_error v i with
  | Some x => Done x
  | None => Abort index_out_of_range
  end.

(** [u + v], [u - v] and [u += v], [u -= v] on vectors *)
Definition vzip (op : T -> T -> T) (u v : Vector) : outcome Vector :=
  if length u =? length v
  then Done (tabulate (length u) (fun i => op (vnth u i) (vnth v i)))
  else Abort size_mismatch.

Definition vadd : Vector -> Vector -> outcome Vector := vzip sadd.
Definition vsub : Vector -> Vector -> outcome Vector := vzip ssub.

(** [s * v] *)
Definition vscale (s : T) (v : Vector) : Vector := map (smul s) v.

(** [v.topLeftCorner(n, 1)] read from a column vector *)
Definition head_segment (v : Vector) (n : nat) : outcome Vector :=
  if n <=? length v then Done (firstn n v) else Abort index_out_of_range.

(** [v.bottomRightCorner(k, 1)] read from a column vector *)
Definition tail_segment (v : Vector) (k : nat) : outcome Vector :=
  if k <=? length v then Done (skipn (length v - k) v)
  else Abort index_out_of_range.

(** [v.topLeftCorner(n, 1) = src] *)
Definition set_head_segment (v : Vector) (n : nat) (src : Vector)
  : outcome Vector :=
  _ <- check (n <=? length v) index_out_of_range ;;
  _ <- check (length src =? n) size_mismatch ;;
  Done (src ++ skipn n v).

(** A vector standing as an n x 1 column, or as a 1 x n row. *)
Definition as_col (v : Vector) : Matrix := mk (length v) 1 (fun i _ => vnth v i).
Definition as_row (v : Vector) : Matrix := mk 1 (length v) (fun _ j => vnth v j).

(** [a + b], [a - b], [a += b], [a -= b] on matrices *)
Definition mzip (op : T -> T -> T) (a b : Matrix) : outcome Matrix :=
  if (rows a =? rows b) && (cols a =? cols b)
  then Done (mk (rows a) (cols a) (fun i j => op (get a i j) (get b i j)))
  else Abort size_mismatch.

Definition madd : Matrix -> Matrix -> outcome Matrix := mzip sadd.
Definition msub : Matrix -> Matrix -> outcome Matrix := mzip ssub.

(** [m * s] *)
Definition mscale_r (m : Matrix) (s : T) : Matrix :=
  mk (rows m) (cols m) (fun i j => smul (get m i j) s).

(** [g 0 + g 1 + ... + g (n-1)], accumulated from the first term as
    Eigen's coefficient products are; zero for an empty sum. *)
Definition ssum (n : nat) (g : nat -> T) : T :=
  match n with
  | O => s0
  | S n' => fold_left (fun acc k => sadd acc (g k)) (seq 1 n') (g 0)
  end.


(** [a * b] *)
Definition mmul (a b : Matrix) : outcome Matrix :=
  if cols a =? rows b
  then Done (mk (rows a) (cols b)
                (fun i j => ssum (cols a) (fun k => smul (get a i k) (get b k j))))
  else Abort size_mismatch.

(** [m * v] for a column vector [v] *)
Definition mvmul (m : Matrix) (v : Vector) : outcome Vector :=
  if cols m =? length v
  then Done (tabulate (rows m)
                      (fun i => ssum (cols m) (fun k => smul (get m i k) (vnth v k))))
  else Abort size_mismatch.

(** [m.transpose()] *)
Definition transpose (m : Matrix) : Matrix :=
  mk (cols m) (rows m) (fun i j => get m j i).

(** [m.row(i)] and [m.col(j)], read *)
Definition row (m : Matrix) (i : nat) : outcome Vector :=
  if i <? rows m then Done (tabulate (cols m) (fun j => get m i j))
  else Abort index_out_of_range.

Definition col (m : Matrix) (j : nat) : outcome Vector :=
  if j <? cols m then Done (tabulate (rows m) (fun i => get m i j))
  else Abort index_out_of_range.

(** [m.row(i) = v] *)
Definition set_row (m : Matrix) (i : nat) (v : Vector) : outcome Matrix :=
  _ <- check (i <? rows m) index_out_of_range ;;
  _ <- check (length v =? cols m) size_mismatch ;;
  Done (mk (rows m) (cols m)
           (fun a b => if a =? i then vnth v b else get m a b)).

(** [m.topLeftCorner(r, c)], read *)
Definition topLeftCorner (m : Matrix) (r c : nat) : outcome Matrix :=
  _ <- check ((r <=? rows m) && (c <=? cols m)) index_out_of_range ;;
  Done (mk r c (fun i j => get m i j)).

(** [m.topLeftCorner(r, c) = src] *)
Definition set_topLeftCorner (m : Matrix) (r c : nat) (src : Matrix)
  : outcome Matrix :=
  _ <- check ((r <=? rows m) && (c <=? cols m)) index_out_of_range ;;
  _ <- check ((rows src =? r) && (cols src =? c)) size_mismatch ;;
  Done (mk (rows m) (cols m)
           (fun i j => if (i <? r) && (j <? c) then get src i j else get m i j)).

(** [m.bottomRightCorner(r, c) = src] *)
Definition set_bottomRightCorner (m : Matrix) (r c : nat) (src : Matrix)
  : outcome Matrix :=
  _ <- check ((r <=? rows m) && (c <=? cols m)) index_out_of_range ;;
  _ <- check ((rows src =? r) && (cols src =? c)) size_mismatch ;;
  Done (mk (rows m) (cols m)
           (fun i j =>
              if (rows m - r <=? i) && (cols m - c <=? j)
              then get src (i - (rows m - r)) (j - (cols m - c))
              else get m i j)).

End Dense.

Arguments Vector T : clear implicits.
Arguments Matrix T : clear implicits.

(* ================================================================== *)
(** ** The system model and Eigen's solvers *)

(** The template parameter [System]: [f] is the transition function
    [system.f(state, control)], [h] the observation function
    [system.h(state)]; both take and return [VectorXt]. *)
Record System (T : Type) : Type := {
  f : Vector T -> Vector T -> Vector T;
  h : Vector T -> Vector T
}.

(** [Eigen::ComputationInfo] *)
Inductive ComputationInfo : Set :=
| Success
| NumericalIssue
| NoConvergence
| InvalidInput.

(** Eigen's decompositions, as black boxes.  [llt_compute a] is the state
    of an [Eigen::LLT] object built from the square matrix [a]: what
    [info()] reports and the matrix it stores, whose lower triangle is
    [matrixL()].  [inverse_coeffs a] holds the coefficients of
    [a.inverse()]. *)
Class Solvers (T : Type) : Type := {
  llt_compute : Matrix T -> ComputationInfo * Matrix T;
  inverse_coeffs : Matrix T -> Matrix T
}.

(* ================================================================== *)
(** ** The filter *)

Section Filter.

Context {T : Type} {Sc : Scalar T} {Sv : Solvers T}.
Variable system : System T.

(** The data members.  [N_], [M_], [K_], [S_] are the members [N], [M],
    [K], [S]; [state_dim], [input_dim], [measurement_dim] hold the same
    values as [N], [M], [K] and are left out, as are the random
    generator [mt] and [normal_dist], which no member function reads. *)
Record Filter : Type := mkFilter {
  N_ : nat;
  M_ : Z;
  K_ : nat;
  S_ : nat;
  mean : Vector T;
  cov : Matrix T;
  process_noise : Matrix T;
  measurement_noise : Matrix T;
  weights : Vector T;
  cubature_points : Matrix T;
  ext_weights : Vector T;
  ext_cubature_points : Matrix T;
  expected_measurements : Matrix T;
  kalman_gain : Matrix T
}.

Definition int_max : Z := 2147483647.

(** Largest [int] size for which every size expression of the
    constructor, up to [2*(N+K)], stays an [int]. *)
Definition sizes_fit (state_dim measurement_dim : Z) : bool :=
  ((0 <=? state_dim) && (0 <=? measurement_dim)
   && (2 * (state_dim + measurement_dim) <=? int_max))%Z.

(** The constructor.  [resize] leaves coefficients uninitialised; the
    weight vectors are then filled by the two loops, the three point
    buffers are not, and stand here as zero matrices of the sizes given
    to [resize].  [kalman_gain] is default-constructed. *)
Definition CubatureKalmanFilterX
           (state_dim input_dim measurement_dim : Z)
           (process_noise0 measurement_noise0 : Matrix T)
           (mean0 : Vector T) (cov0 : Matrix T) : outcome Filter :=
  _ <- check (sizes_fit state_dim measurement_dim) invalid_size ;;
  let N := Z.to_nat state_dim in
  let K := Z.to_nat measurement_dim in
  let S := 2 * N in
  Done {| N_ := N; M_ := input_dim; K_ := K; S_ := S;
          mean := mean0; cov := cov0;
          process_noise := process_noise0;
          measurement_noise := measurement_noise0;
          (* weights[i] = 1.0 / S; *)
          weights := repeat (sdiv s1 (of_Z (Z.of_nat S))) S;
          cubature_points := mzero S N;
          (* ext_weights[i] = 1.0 / 2*(N+K); *)
          ext_weights :=
            repeat (smul (sdiv s1 (of_Z 2)) (of_Z (Z.of_nat (N + K))))
                   (2 * (N + K));
          ext_cubature_points := mzero (2 * (N + K)) (N + K);
          expected_measurements := mzero (2 * (N + K)) K;
          kalman_gain := empty_matrix |}.

(** [MatrixXt P_chol = llt.matrixL()]: the lower triangle of the matrix
    the factorisation object stores, the upper part zero. *)
Definition matrixL (a : Matrix T) : Matrix T :=
  mk (rows a) (cols a)
     (fun i j => if j <=? i then get (snd (llt_compute a)) i j else s0).

Definition llt_info (a : Matrix T) : ComputationInfo := fst (llt_compute a).


(** [m.inverse()] *)
Definition inverse (a : Matrix T) : outcome (Matrix T) :=
  _ <- check (rows a =? cols a) size_mismatch ;;
  Done (mk (rows a) (cols a) (get (inverse_coeffs a))).

(** [computeCubaturePoints(mean, cov, cubature_points)]; the third
    argument is the buffer the points are written to. *)
Definition cubature_step (n : nat) (mean0 : Vector T) (l : Matrix T)
           (i : nat) (pts : Matrix T) : outcome (Matrix T) :=
  c <- col l i ;;
  p <- vadd mean0 c ;;
  pts <- set_row pts i p ;;
  c <- col l i ;;
  q <- vsub mean0 c ;;
  set_row pts (n + i) q.

Definition computeCubaturePoints (mean0 : Vector T) (cov0 : Matrix T)
           (pts : Matrix T) : outcome (Matrix T) :=
  let n := length mean0 in
  _ <- check ((rows cov0 =? n) && (cols cov0 =? n)) assertion_failed ;;
  let P_chol := matrixL cov0 in
  let l := mscale_r P_chol (ssqrt (of_Z (Z.of_nat n))) in
  for_loop 0 n (cubature_step n mean0 l) pts.

(** What the loop of [computeCubaturePoints] has written after [i]
    iterations, for the scaled factor [l]. *)
Definition points_upto (mean0 : Vector T) (l : Matrix T) (i : nat)
           (pts : Matrix T) : Prop :=
  let n := length mean0 in
  rows pts = 2 * n /\ cols pts = n /\
  forall k j, k < i -> j < n ->
    get pts k j = sadd (vnth mean0 j) (get l j k)
    /\ get pts (n + k) j = ssub (vnth mean0 j) (get l j k).

(** [ensurePositiveFinite(cov)]: the body opens with [return;], the
    eigenvalue clipping after it is never reached. *)
Definition ensurePositiveFinite (cov0 : Matrix T) : Matrix T := cov0.

(** *** predict *)

(** [cubature_points.row(i) = system.f(cubature_points.row(i), control);] *)
Definition propagate_step (control : Vector T) (i : nat) (pts : Matrix T)
  : outcome (Matrix T) :=
  r <- row pts i ;;
  set_row pts i (f system r control).

(** [mean_pred += weights[i] * cubature_points.row(i);] *)
Definition mean_step (w : Vector T) (pts : Matrix T) (i : nat)
           (acc : Vector T) : outcome (Vector T) :=
  wi <- vget w i ;;
  r <- row pts i ;;
  vadd acc (vscale wi r).

(** [acc += w[i] * a.row(i).transpose() * b.row(i);]: the summand of the
    covariance loops, an outer product. *)
Definition outer_step (w : Vector T) (a b : Matrix T) (i : nat)
           (acc : Matrix T) : outcome (Matrix T) :=
  wi <- vget w i ;;
  r <- row a i ;;
  r' <- row b i ;;
  t <- mmul (as_col (vscale wi r)) (as_row r') ;;
  madd acc t.

(** Lines 83-94: the recombination of the propagated points. *)
Definition predicted_mean (st : Filter) (pts : Matrix T)
  : outcome (Vector T) :=
  for_loop 0 (S_ st) (mean_step (weights st) pts) (vzero (length (mean st))).

Definition predicted_cov (st : Filter) (pts : Matrix T)
           (mean_pred : Vector T) : outcome (Matrix T) :=
  let Q := process_noise st in
  cov_pred <- for_loop 0 (S_ st) (outer_step (weights st) pts pts)
                       (mzero (rows (cov st)) (cols (cov st))) ;;
  (* cov_pred -= mean_pred.transpose() * mean_pred; *)
  mm <- mmul (as_row mean_pred) (as_col mean_pred) ;;
  cov_pred <- msub cov_pred mm ;;
  (* cov_pred += Q; *)
  madd cov_pred Q.

Definition predict_sample (st : Filter) : outcome (Matrix T) :=
  let cov0 := ensurePositiveFinite (cov st) in
  computeCubaturePoints (mean st) cov0 (cubature_points st).

Definition set_prediction (st : Filter) (pts : Matrix T)
           (mean_pred : Vector T) (cov_pred : Matrix T) : Filter :=
  {| N_ := N_ st; M_ := M_ st; K_ := K_ st; S_ := S_ st;
     mean := mean_pred; cov := cov_pred;
     process_noise := process_noise st;
     measurement_noise := measurement_noise st;
     weights := weights st;
     cubature_points := pts;
     ext_weights := ext_weights st;
     ext_cubature_points := ext_cubature_points st;
     expected_measurements := expected_measurements st;
     kalman_gain := kalman_gain st |}.

Definition predict (st : Filter) (control : Vector T) : outcome Filter :=
  pts <- predict_sample st ;;
  pts <- for_loop 0 (S_ st) (propagate_step control) pts ;;
  mean_pred <- predicted_mean st pts ;;
  cov_pred <- predicted_cov st pts mean_pred ;;
  Done (set_prediction st pts mean_pred cov_pred).

(** *** correct *)

Section Correct.

(** Line 132 of the source reads [mean_pred], a name that [correct]
    does not declare and the class does not have (it is a local of
    [predict]).  Whatever the name is bound to is a parameter here; a
    vector binding is its column matrix. *)
Variable mean_pred : Matrix T.

(** Lines 107-111: the augmented mean and covariance. *)
Definition augmented_mean (st : Filter) : outcome (Vector T) :=
  set_head_segment (vzero (N_ st + K_ st)) (N_ st) (mean st).

Definition augmented_cov (st : Filter) : outcome (Matrix T) :=
  m <- set_topLeftCorner (mzero (N_ st + K_ st) (N_ st + K_ st))
                         (N_ st) (N_ st) (cov st) ;;
  set_bottomRightCorner m (K_ st) (K_ st) (measurement_noise st).

Definition correct_sample (st : Filter) (ext_mean_pred : Vector T)
           (ext_cov_pred : Matrix T) : outcome (Matrix T) :=
  let ext_cov0 := ensurePositiveFinite ext_cov_pred in
  computeCubaturePoints ext_mean_pred ext_cov0 (ext_cubature_points st).

(** Lines 120-121: [expected_measurements.row(i) = h(state part)], then
    [expected_measurements.row(i) += noise part]. *)
Definition measure_step (st : Filter) (xpts : Matrix T) (i : nat)
           (em : Matrix T) : outcome (Matrix T) :=
  r <- row xpts i ;;
  x <- head_segment r (N_ st) ;;
  em <- set_row em i (h system x) ;;
  r' <- row xpts i ;;
  noise <- tail_segment r' (K_ st) ;;
  e <- row em i ;;
  e' <- vadd e noise ;;
  set_row em i e'.

Definition measure (st : Filter) (xpts : Matrix T) : outcome (Matrix T) :=
  for_loop 0 (rows xpts) (measure_step st xpts)
           (mzero (rows (expected_measurements st))
                  (cols (expected_measurements st))).

(** Lines 124-127 *)
Definition expected_mean (st : Filter) (xpts em : Matrix T)
  : outcome (Vector T) :=
  for_loop 0 (rows xpts) (mean_step (ext_weights st) em) (vzero (K_ st)).

(** Lines 128-133 *)
Definition expected_cov (st : Filter) (xpts em : Matrix T)
           (expected_measurement_mean : Vector T) : outcome (Matrix T) :=
  c <- for_loop 0 (rows xpts) (outer_step (ext_weights st) em em)
                (mzero (K_ st) (K_ st)) ;;
  (* expected_measurement_cov -= expected_measurement_mean.transpose() * mean_pred; *)
  p <- mmul (as_row expected_measurement_mean) mean_pred ;;
  c <- msub c p ;;
  (* expected_measurement_cov += measurement_noise; *)
  madd c (measurement_noise st).

(** Lines 136-139.  The statement of line 138 has no closing semicolon
    in the source; it is read as ending with its line, the subtraction
    of line 139 following the loop. *)
Definition cross_covariance (st : Filter) (xpts em : Matrix T)
           (ext_mean_pred expected_measurement_mean : Vector T)
  : outcome (Matrix T) :=
  c <- for_loop 0 (S_ st) (outer_step (ext_weights st) xpts em)
                (mzero (N_ st) (K_ st)) ;;
  (* cross_cov -= ext_mean_pred * expected_measurement_mean; *)
  p <- mmul (as_col ext_mean_pred) (as_col expected_measurement_mean) ;;
  msub c p.

(** Line 141: [kalman_gain = cross_cov * cross_cov.inverse();].  The
    expected measurement covariance is at hand but not used. *)
Definition gain (cross_cov expected_measurement_cov : Matrix T)
  : outcome (Matrix T) :=
  inv <- inverse cross_cov ;;
  mmul cross_cov inv.

(** Lines 144-148: the updated augmented mean and covariance, and their
    leading N-sized blocks. *)
Definition update_mean (st : Filter) (g : Matrix T)
           (ext_mean_pred measurement expected_measurement_mean : Vector T)
  : outcome (Vector T) :=
  d <- vsub measurement expected_measurement_mean ;;
  kd <- mvmul g d ;;
  ext_mean <- vadd ext_mean_pred kd ;;
  head_segment ext_mean (N_ st).

Definition update_cov (st : Filter) (g ext_cov_pred
           expected_measurement_cov : Matrix T) : outcome (Matrix T) :=
  t <- mmul g expected_measurement_cov ;;
  t <- mmul t (transpose g) ;;
  ext_cov <- msub ext_cov_pred t ;;
  topLeftCorner ext_cov (N_ st) (N_ st).

Definition set_correction (st : Filter) (xpts em g : Matrix T)
           (mean1 : Vector T) (cov1 : Matrix T) : Filter :=
  {| N_ := N_ st; M_ := M_ st; K_ := K_ st; S_ := S_ st;
     mean := mean1; cov := cov1;
     process_noise := process_noise st;
     measurement_noise := measurement_noise st;
     weights := weights st;
     cubature_points := cubature_points st;
     ext_weights := ext_weights st;
     ext_cubature_points := xpts;
     expected_measurements := em;
     kalman_gain := g |}.

Definition correct (st : Filter) (measurement : Vector T) : outcome Filter :=
  ext_mean_pred <- augmented_mean st ;;
  ext_cov_pred <- augmented_cov st ;;
  xpts <- correct_sample st ext_mean_pred ext_cov_pred ;;
  em <- measure st xpts ;;
  expected_measurement_mean <- expected_mean st xpts em ;;
  expected_measurement_cov <-
    expected_cov st xpts em expected_measurement_mean ;;
  cross_cov <- cross_covariance st xpts em ext_mean_pred
                                expected_measurement_mean ;;
  g <- gain cross_cov expected_measurement_cov ;;
  mean1 <- update_mean st g ext_mean_pred measurement
                       expected_measurement_mean ;;
  cov1 <- update_cov st g ext_cov_pred expected_measurement_cov ;;
  Done (set_correction st xpts em g mean1 cov1).

End Correct.

(** *** Accessors *)

Definition getMean (st : Filter) : Vector T := mean st.
Definition getCov (st : Filter) : Matrix T := cov st.
Definition getSigmaPoints (st : Filter) : Matrix T := cubature_points st.
Definition getKalmanGain (st : Filter) : Matrix T := kalman_gain st.

(** *** Mutators; each returns the filter itself *)

Definition setMean (st : Filter) (m : Vector T) : Filter :=
  set_prediction st (cubature_points st) m (cov st).

Definition setCov (st : Filter) (s : Matrix T) : Filter :=
  set_prediction st (cubature_points st) (mean st) s.

Definition setProcessNoiseCov (st : Filter) (p : Matrix T) : Filter :=
  {| N_ := N_ st; M_ := M_ st; K_ := K_ st; S_ := S_ st;
     mean := mean st; cov := cov st;
     process_noise := p;
     measurement_noise := measurement_noise st;
     weights := weights st;
     cubature_points := cubature_points st;
     ext_weights := ext_weights st;
     ext_cubature_points := ext_cubature_points st;
     expected_measurements := expected_measurements st;
     kalman_gain := kalman_gain st |}.

Definition setMeasurementNoiseCov (st : Filter) (m : Matrix T) : Filter :=
  {| N_ := N_ st; M_ := M_ st; K_ := K_ st; S_ := S_ st;
     mean := mean st; cov := cov st;
     process_noise := process_noise st;
     measurement_noise := m;
     weights := weights st;
     cubature_points := cubature_points st;
     ext_weights := ext_weights st;
     ext_cubature_points := ext_cubature_points st;
     expected_measurements := expected_measurements st;
     kalman_gain := kalman_gain st |}.

(** A run of [predict] calls, one per control input. *)
Fixpoint predict_all (st : Filter) (controls : list (Vector T))
  : outcome Filter :=
  match controls with
  | [] => Done st
  | u :: us => st' <- predict st u ;; predict_all st' us
  end.

End Filter.

(* ================================================================== *)
(** ** Exact rational scalars, for running the filter on inputs *)

Module Rational.

Import QArith Qcanon.
Local Open Scope Qc_scope.

(** Square root of a rational: exact on squares of rationals, which
    are the only arguments the examples give it; off squares it rounds
    numerator and denominator down and is not the root. *)
Definition Qc_sqrt (q : Qc) : Qc :=
  Q2Qc (Z.sqrt (Qnum q) # Pos.sqrt (Qden q)).

#[export] Instance Qc_Scalar : Scalar Qc := {
  s0 := 0;
  s1 := 1;
  sadd := Qcplus;
  ssub := Qcminus;
  smul := Qcmult;
  sdiv := Qcdiv;
  sopp := Qcopp;
  sinv := Qcinv;
  ssqrt := Qc_sqrt;
  of_Z := fun z => Q2Qc (inject_Z z)
}.

Definition Qc_nonpos (x : Qc) : bool := Qle_bool x 0.

(** Cholesky factorisation in place, column by column, as Eigen's LLT
    does for small matrices: at column [k] the pivot is
    [a(k,k) - sum_{j<k} a(k,j)^2]; a pivot that is not positive stops
    the factorisation with [NumericalIssue] and leaves the matrix as it
    is at that point. *)
Fixpoint llt_columns (n k count : nat) (a : Matrix Qc)
  : ComputationInfo * Matrix Qc :=
  match count with
  | O => (Success, a)
  | S count' =>
      let x := get a k k - ssum k (fun j => get a k j * get a k j) in
      if Qc_nonpos x then (NumericalIssue, a)
      else
        let d := Qc_sqrt x in
        let a' :=
          mk n n (fun i j =>
                    if j =? k then
                      if i =? k then d
                      else if k <? i then
                             (get a i k
                              - ssum k (fun j' => get a i j' * get a k j')) / d
                           else get a i j
                    else get a i j) in
        llt_columns n (S k) count' a'
  end.

(** Inverse by cofactors:
    [inverse(i,j) = (-1)^(i+j) det(minor j i) / det].  On a singular
    matrix the division by zero gives 0 in [Qc], where Eigen gives
    non-finite values; no example inverts a singular matrix. *)
Definition drop_nth {A : Type} (i : nat) (l : list A) : list A :=
  firstn i l ++ skipn (S i) l.

Definition minor (m : list (list Qc)) (i j : nat) : list (list Qc) :=
  map (drop_nth j) (drop_nth i m).

Definition sign (k : nat) : Qc := if Nat.even k then 1 else - (1).

Fixpoint det (n : nat) (m : list (list Qc)) : Qc :=
  match n with
  | O => 1
  | S n' =>
      ssum n (fun j => sign j * nth j (nth 0 m []) 0 * det n' (minor m 0 j))
  end.

Definition cofactor_inverse (a : Matrix Qc) : Matrix Qc :=
  let n := rows a in
  let m := coeffs a in
  mk n n (fun i j => sign (i + j) * det (n - 1) (minor m j i) / det n m).

#[export] Instance Qc_Solvers : Solvers Qc := {
  llt_compute := fun a => llt_columns (rows a) 0 (rows a) a;
  inverse_coeffs := cofactor_inverse
}.

(** The system of the spec's scenario in any dimension:
    [f(x, u) = x + u] coefficient by coefficient, [h(x) = x]. *)
Definition additive : System Qc := {|
  f := fun x u => map (fun p => fst p + snd p) (combine x u);
  h := fun x => x
|}.

(** Matrices and vectors from integer literals. *)
Definition qc (z : Z) : Qc := Q2Qc (inject_Z z).
Definition frac (a : Z) (b : positive) : Qc := Q2Qc (a # b).
Definition matrix_of (l : list (list Qc)) : Matrix Qc :=
  mkMatrix (length l) (length (nth 0 l [])) l.

(** *** Inputs the filter is run on *)

Definition identity (n : nat) : Matrix Qc :=
  mk n n (fun i j => if (i =? j)%nat then 1 else 0).

(** [h] observes the first coordinate of the state. *)
Definition first_coordinate : System Qc := {|
  f := f additive;
  h := fun x => firstn 1 x
|}.

(** The scenario of the spec: N = K = 1, f(x,u) = x + u, h(x) = x,
    Q = 0.01, R = 0.1, mean 0, covariance 1, control 1. *)
Definition scenario : outcome (Filter (T := Qc)) :=
  CubatureKalmanFilterX 1 1 1 (matrix_of [[frac 1 100]]) (matrix_of [[frac 1 10]])
                        [qc 0] (matrix_of [[qc 1]]).

(** Four states: N = 4, mean 0, covariance the identity, Q = 0 *)
Definition zero4 : Vector Qc := [qc 0; qc 0; qc 0; qc 0].

Definition four_states : outcome (Filter (T := Qc)) :=
  CubatureKalmanFilterX 4 4 1 (mzero 4 4) (matrix_of [[frac 1 10]])
                        zero4 (identity 4).

(** Two states, two measurements: N = K = 2, h(x) = x, R = I *)
Definition two_by_two : outcome (Filter (T := Qc)) :=
  CubatureKalmanFilterX 2 0 2 (mzero 2 2) (identity 2)
                        [qc 0; qc 0] (identity 2).

(** Three states, one measurement: N = 3, K = 1, h(x) = x[0], R = 1 *)
Definition three_by_one : outcome (Filter (T := Qc)) :=
  CubatureKalmanFilterX 3 3 1 (mzero 3 3) (matrix_of [[qc 1]])
                        [qc 0; qc 0; qc 0] (identity 3).

(** One state with covariance -1 *)
Definition indefinite : outcome (Filter (T := Qc)) :=
  CubatureKalmanFilterX 1 1 1 (mzero 1 1) (matrix_of [[frac 1 10]])
                        [qc 0] (matrix_of [[qc (-1)]]).




(** One state with covariance 1 and process noise 3: the covariance is
    1, then 4, then 7 under [f(x, u) = x + u]. *)
Definition squares : outcome (Filter (T := Qc)) :=
  CubatureKalmanFilterX 1 1 1 (matrix_of [[qc 3]]) (matrix_of [[frac 1 10]])
                        [qc 0] (matrix_of [[qc 1]]).

(** A symmetric positive definite matrix with a rational factor. *)
Definition spd2 : Matrix Qc := matrix_of [[qc 4; qc 2]; [qc 2; qc 10]].

End Rational.

(* ================================================================== *)
(** ** Binary64 scalars ([T = double]) *)

Section Textbook.

Context {T : Type} {Sc : Scalar T}.
Variable nonpos : T -> bool.

(** Cholesky factorisation in place, column by column, as in [Rational],
    over any scalar type with the test [x <= 0]. *)
Fixpoint llt_by_columns (n k count : nat) (a : Matrix T)
  : ComputationInfo * Matrix T :=
  match count with
  | O => (Success, a)
  | S count' =>
      let x := ssub (get a k k)
                    (ssum k (fun j => smul (get a k j) (get a k j))) in
      if nonpos x then (NumericalIssue, a)
      else
        let d := ssqrt x in
        let a' :=
          mk n n (fun i j =>
                    if j =? k then
                      if i =? k then d
                      else if k <? i then
                             sdiv (ssub (get a i k)
                                        (ssum k (fun j' => smul (get a i j')
                                                                (get a k j'))))
                                  d
                           else get a i j
                    else get a i j) in
        llt_by_columns n (S k) count' a'
  end.

Definition signed (k : nat) (x : T) : T := if Nat.even k then x else sopp x.

Fixpoint det_by_cofactors (n : nat) (m : list (list T)) : T :=
  match n with
  | O => s1
  | S n' =>
      ssum n (fun j =>
                smul (signed j (nth j (nth 0 m []) s0))
                     (det_by_cofactors n'
                        (map (fun r => firstn j r ++ skipn (S j) r)
                             (skipn 1 m))))
  end.

Definition inverse_by_cofactors (a : Matrix T) : Matrix T :=
  let n := rows a in
  let m := coeffs a in
  mk n n (fun i j =>
            sdiv (signed (i + j)
                    (det_by_cofactors (n - 1)
                       (map (fun r => firstn i r ++ skipn (S i) r)
                            (firstn j m ++ skipn (S j) m))))
                 (det_by_cofactors n m)).

End Textbook.

Module Binary64.

Import PrimFloat.

(** The conversion of an [int] to [double], exact on the range of
    [int]. *)
Fixpoint float_of_pos (p : positive) : float :=
  match p with
  | xH => 1%float
  | xO q => PrimFloat.mul 2%float (float_of_pos q)
  | xI q => PrimFloat.add (PrimFloat.mul 2%float (float_of_pos q)) 1%float
  end.

Definition float_of_Z (z : Z) : float :=
  match z with
  | Z0 => 0%float
  | Zpos p => float_of_pos p
  | Zneg p => PrimFloat.opp (float_of_pos p)
  end.

#[export] Instance float_Scalar : Scalar float := {
  s0 := 0%float;
  s1 := 1%float;
  sadd := PrimFloat.add;
  ssub := PrimFloat.sub;
  smul := PrimFloat.mul;
  sdiv := PrimFloat.div;
  sopp := PrimFloat.opp;
  sinv := fun x => PrimFloat.div 1%float x;
  ssqrt := PrimFloat.sqrt;
  of_Z := float_of_Z
}.

#[export] Instance float_Solvers : Solvers float := {
  llt_compute :=
    fun a => llt_by_columns (fun x => PrimFloat.leb x 0%float)
                            (rows a) 0 (rows a) a;
  inverse_coeffs := inverse_by_cofactors
}.



End Binary64.

(* ================================================================== *)
(** ** Basic facts: outcomes, loops, sizes *)

Section Facts.

Context {T : Type} {Sc : Scalar T}.

Lemma bind_Done_inv (A B : Type) (c : outcome A) (k : A -> outcome B) (b : B) :
  bind c k = Done b -> exists a, c = Done a /\ k a = Done b.
Proof.
  destruct c as [a|e]; simpl; intros E.
  - exists a. split; [reflexivity | exact E].
  - discriminate E.
Qed.

Lemma bind_aborts_l (A B : Type) (c : outcome A) (k : A -> outcome B) :
  aborts c -> aborts (bind c k).
Proof. intros [e ->]. exists e. reflexivity. Qed.

Lemma bind_aborts_r (A B : Type) (c : outcome A) (k : A -> outcome B) :
  (forall a, c = Done a -> aborts (k a)) -> aborts (bind c k).
Proof.
  intros Hk. destruct c as [a|e]; simpl.
  - apply Hk. reflexivity.
  - exists e. reflexivity.
Qed.

Lemma check_Done_inv (b : bool) (e : failure) (u : unit) :
  check b e = Done u -> b = true.
Proof. destruct b; simpl; [reflexivity | discriminate]. Qed.

Lemma completes_not_aborts (A : Type) (c : outcome A) :
  completes c -> ~ aborts c.
Proof. intros [a ->] [e E]. discriminate E. Qed.

(** A property kept by every completed iteration holds after the loop. *)
Lemma for_loop_preserves (A : Type) (P : A -> Prop)
      (body : nat -> A -> outcome A) :
  (forall i a a', body i a = Done a' -> P a -> P a') ->
  forall count start acc acc',
    for_loop start count body acc = Done acc' -> P acc -> P acc'.
Proof.
  intros Hbody. induction count as [|count IH]; simpl; intros start acc acc' E HP.
  - injection E as <-. exact HP.
  - apply bind_Done_inv in E. destruct E as (a1 & E1 & E2).
    eapply IH; [exact E2 | eapply Hbody; eassumption].
Qed.

(** A loop whose every iteration completes and re-establishes the
    invariant completes, and the invariant holds at the end. *)
Lemma for_loop_invariant (A : Type) (I : nat -> A -> Prop)
      (body : nat -> A -> outcome A) :
  forall count start acc,
    I start acc ->
    (forall i a, start <= i < start + count -> I i a ->
                 exists a', body i a = Done a' /\ I (S i) a') ->
    exists acc', for_loop start count body acc = Done acc'
                 /\ I (start + count) acc'.
Proof.
  induction count as [|count IH]; simpl; intros start acc HI Hstep.
  - exists acc. rewrite Nat.add_0_r. split; [reflexivity | exact HI].
  - destruct (Hstep start acc) as (a1 & E1 & HI1); [lia | exact HI |].
    rewrite E1. simpl.
    destruct (IH (S start) a1 HI1) as (acc' & E & HI').
    + intros i a Hi. apply Hstep. lia.
    + exists acc'. split; [exact E |].
      replace (start + S count) with (S start + count) by lia. exact HI'.
Qed.


Lemma length_tabulate (A : Type) (n : nat) (g : nat -> A) :
  length (tabulate n g) = n.
Proof. unfold tabulate. rewrite length_map, length_seq. reflexivity. Qed.

Lemma nth_tabulate (A : Type) (n : nat) (g : nat -> A) (i : nat) (d : A) :
  i < n -> nth i (tabulate n g) d = g i.
Proof.
  intros Hi. unfold tabulate.
  rewrite (nth_indep _ d (g 0)) by (rewrite length_map, length_seq; exact Hi).
  rewrite (map_nth g (seq 0 n) 0 i), seq_nth by exact Hi. reflexivity.
Qed.

Lemma tabulate_ext (A : Type) (n : nat) (g g' : nat -> A) :
  (forall i, i < n -> g i = g' i) -> tabulate n g = tabulate n g'.
Proof.
  intros H. unfold tabulate. apply map_ext_in.
  intros i Hi. apply in_seq in Hi. apply H. lia.
Qed.

Lemma get_mk (r c : nat) (g : nat -> nat -> T) (i j : nat) :
  i < r -> j < c -> get (mk r c g) i j = g i j.
Proof.
  intros Hi Hj. unfold get, mk. simpl.
  rewrite (nth_tabulate (fun i => tabulate c (fun j => g i j)) [] Hi).
  apply nth_tabulate. exact Hj.
Qed.

Lemma vnth_tabulate (n : nat) (g : nat -> T) (i : nat) :
  i < n -> vnth (tabulate n g) i = g i.
Proof. intros Hi. unfold vnth. apply nth_tabulate. exact Hi. Qed.

Lemma vzip_Done_inv (op : T -> T -> T) (u v w : Vector T) :
  vzip op u v = Done w -> length u = length v /\ length w = length u.
Proof.
  unfold vzip. destruct (length u =? length v) eqn:E; [|discriminate].
  intros H. injection H as <-. apply Nat.eqb_eq in E.
  split; [exact E | apply length_tabulate].
Qed.

Lemma mzip_Done_inv (op : T -> T -> T) (a b c : Matrix T) :
  mzip op a b = Done c ->
  rows a = rows b /\ cols a = cols b /\ rows c = rows a /\ cols c = cols a.
Proof.
  unfold mzip.
  destruct ((rows a =? rows b) && (cols a =? cols b)) eqn:E; [|discriminate].
  intros H. injection H as <-. apply andb_true_iff in E. destruct E as [E1 E2].
  apply Nat.eqb_eq in E1. apply Nat.eqb_eq in E2. simpl. auto.
Qed.

Lemma mmul_Done_inv (a b c : Matrix T) :
  mmul a b = Done c ->
  cols a = rows b /\ rows c = rows a /\ cols c = cols b.
Proof.
  unfold mmul. destruct (cols a =? rows b) eqn:E; [|discriminate].
  intros H. injection H as <-. apply Nat.eqb_eq in E. simpl. auto.
Qed.

(** The accumulating steps keep the size of the accumulator. *)
Lemma outer_step_size (w : Vector T) (a b : Matrix T) (i : nat)
      (acc acc' : Matrix T) :
  outer_step w a b i acc = Done acc' ->
  rows acc' = rows acc /\ cols acc' = cols acc.
Proof.
  unfold outer_step. intros E.
  apply bind_Done_inv in E. destruct E as (wi & _ & E).
  apply bind_Done_inv in E. destruct E as (r & _ & E).
  apply bind_Done_inv in E. destruct E as (r' & _ & E).
  apply bind_Done_inv in E. destruct E as (t & _ & E).
  apply mzip_Done_inv in E. tauto.
Qed.

Lemma outer_loop_size (w : Vector T) (a b : Matrix T) (r c : nat) :
  forall count start acc acc',
    for_loop start count (outer_step w a b) acc = Done acc' ->
    rows acc = r /\ cols acc = c -> rows acc' = r /\ cols acc' = c.
Proof.
  apply for_loop_preserves. intros i x x' E [Hr Hc].
  apply outer_step_size in E. destruct E as [E1 E2].
  rewrite E1, E2. auto.
Qed.

Lemma mean_step_length (w : Vector T) (pts : Matrix T) (i : nat)
      (acc acc' : Vector T) :
  mean_step w pts i acc = Done acc' -> length acc' = length acc.
Proof.
  unfold mean_step. intros E.
  apply bind_Done_inv in E. destruct E as (wi & _ & E).
  apply bind_Done_inv in E. destruct E as (r & _ & E).
  apply vzip_Done_inv in E. tauto.
Qed.

Lemma mean_loop_length (w : Vector T) (pts : Matrix T) (n : nat) :
  forall count start acc acc',
    for_loop start count (mean_step w pts) acc = Done acc' ->
    length acc = n -> length acc' = n.
Proof.
  apply for_loop_preserves. intros i x x' E H.
  apply mean_step_length in E. congruence.
Qed.

End Facts.

(* ================================================================== *)
(** ** Sizes inside [correct] *)

Section CorrectFacts.

Context {T : Type} {Sc : Scalar T} {Sv : Solvers T}.
Variable system : System T.
Variable mean_pred : Matrix T.

Lemma length_vzero (n : nat) : length (vzero (T:=T) n) = n.
Proof. apply repeat_length. Qed.

Lemma augmented_mean_length (st : Filter) (v : Vector T) :
  augmented_mean st = Done v -> length v = N_ st + K_ st.
Proof.
  unfold augmented_mean, set_head_segment. intros E.
  apply bind_Done_inv in E. destruct E as (u1 & _ & E).
  apply bind_Done_inv in E. destruct E as (u2 & E1 & E).
  apply check_Done_inv in E1. apply Nat.eqb_eq in E1.
  injection E as <-.
  rewrite length_app, length_skipn, length_vzero. lia.
Qed.

Lemma expected_mean_length (st : Filter) (xpts em : Matrix T) (v : Vector T) :
  expected_mean st xpts em = Done v -> length v = K_ st.
Proof.
  unfold expected_mean. intros E.
  eapply mean_loop_length; [exact E | apply length_vzero].
Qed.

(** Line 139 multiplies the (N+K) x 1 augmented mean by the K x 1
    expected mean and subtracts the product from the N x K accumulator:
    the product needs K = 1 and the subtraction N = N + K. *)
Lemma cross_covariance_aborts (st : Filter) (xpts em : Matrix T)
      (ext_mean_pred expected_measurement_mean : Vector T) :
  length ext_mean_pred = N_ st + K_ st ->
  length expected_measurement_mean = K_ st ->
  aborts (cross_covariance st xpts em ext_mean_pred expected_measurement_mean).
Proof.
  intros Hx Hm. unfold cross_covariance.
  apply bind_aborts_r. intros c Ec.
  apply outer_loop_size with (r := N_ st) (c := K_ st) in Ec;
    [| split; reflexivity].
  destruct Ec as [Hr Hc].
  apply bind_aborts_r. intros p Ep.
  apply mmul_Done_inv in Ep. simpl in Ep. destruct Ep as (E1 & E2 & E3).
  unfold msub, mzip.
  destruct ((rows c =? rows p) && (cols c =? cols p)) eqn:E.
  - apply andb_true_iff in E. destruct E as [Ea Eb].
    apply Nat.eqb_eq in Ea. apply Nat.eqb_eq in Eb. exfalso. lia.
  - exists size_mismatch. reflexivity.
Qed.

(** Line 132 multiplies the 1 x K transposed expected mean by
    [mean_pred] and subtracts the product, which has one row, from the
    K x K accumulator. *)
Lemma expected_cov_needs_K1 (st : Filter) (xpts em : Matrix T)
      (expected_measurement_mean : Vector T) :
  completes (expected_cov mean_pred st xpts em expected_measurement_mean) ->
  K_ st = 1.
Proof.
  intros [c0 E]. unfold expected_cov in E.
  apply bind_Done_inv in E. destruct E as (c & Ec & E).
  apply outer_loop_size with (r := K_ st) (c := K_ st) in Ec;
    [| split; reflexivity].
  apply bind_Done_inv in E. destruct E as (p & Ep & E).
  apply bind_Done_inv in E. destruct E as (c1 & E1 & _).
  apply mmul_Done_inv in Ep. apply mzip_Done_inv in E1. simpl in Ep. lia.
Qed.

(** [predict]'s line 93 has the same shape: the product
    [mean_pred.transpose() * mean_pred] is 1 x 1. *)
Lemma predicted_cov_needs_N1 (st : Filter) (pts : Matrix T)
      (mean_pred0 : Vector T) :
  completes (predicted_cov st pts mean_pred0) ->
  rows (cov st) = 1 /\ cols (cov st) = 1.
Proof.
  intros [c0 E]. unfold predicted_cov in E.
  apply bind_Done_inv in E. destruct E as (c & Ec & E).
  apply outer_loop_size with (r := rows (cov st)) (c := cols (cov st)) in Ec;
    [| split; reflexivity].
  apply bind_Done_inv in E. destruct E as (p & Ep & E).
  apply bind_Done_inv in E. destruct E as (c1 & E1 & _).
  apply mmul_Done_inv in Ep. apply mzip_Done_inv in E1. simpl in Ep. lia.
Qed.

(** [predict] only replaces the mean, the covariance and the points. *)
Lemma predict_frame (st st' : Filter) (control : Vector T) :
  predict system st control = Done st' ->
  N_ st' = N_ st /\ K_ st' = K_ st /\ S_ st' = S_ st
  /\ weights st' = weights st /\ ext_weights st' = ext_weights st
  /\ process_noise st' = process_noise st
  /\ measurement_noise st' = measurement_noise st
  /\ kalman_gain st' = kalman_gain st.
Proof.
  unfold predict. intros E.
  apply bind_Done_inv in E. destruct E as (p0 & _ & E).
  apply bind_Done_inv in E. destruct E as (p1 & _ & E).
  apply bind_Done_inv in E. destruct E as (m1 & _ & E).
  apply bind_Done_inv in E. destruct E as (c1 & _ & E).
  injection E as <-. simpl. repeat split; reflexivity.
Qed.

End CorrectFacts.

(* ================================================================== *)
(** ** Cubature points *)

Section Cubature.

Context {T : Type} {Sc : Scalar T} {Sv : Solvers T}.

Lemma col_Done (l : Matrix T) (j : nat) :
  j < cols l -> col l j = Done (tabulate (rows l) (fun i => get l i j)).
Proof.
  intros Hj. unfold col. apply Nat.ltb_lt in Hj. rewrite Hj. reflexivity.
Qed.

Lemma row_Done (m : Matrix T) (i : nat) :
  i < rows m -> row m i = Done (tabulate (cols m) (fun j => get m i j)).
Proof.
  intros Hi. unfold row. apply Nat.ltb_lt in Hi. rewrite Hi. reflexivity.
Qed.

Lemma vzip_Done (op : T -> T -> T) (u v : Vector T) :
  length u = length v ->
  vzip op u v = Done (tabulate (length u) (fun i => op (vnth u i) (vnth v i))).
Proof.
  intros E. unfold vzip. apply Nat.eqb_eq in E. rewrite E. reflexivity.
Qed.

Lemma set_row_Done (m : Matrix T) (i : nat) (v : Vector T) :
  i < rows m -> length v = cols m ->
  set_row m i v =
  Done (mk (rows m) (cols m)
           (fun a b => if a =? i then vnth v b else get m a b)).
Proof.
  intros Hi Hv. unfold set_row.
  apply Nat.ltb_lt in Hi. apply Nat.eqb_eq in Hv. rewrite Hi, Hv. reflexivity.
Qed.

Lemma vget_Done (v : Vector T) (i : nat) :
  i < length v -> vget v i = Done (vnth v i).
Proof.
  intros Hi. unfold vget, vnth.
  rewrite (nth_error_nth' v s0 Hi). reflexivity.
Qed.

Lemma tabulate_vnth (v : Vector T) : tabulate (length v) (vnth v) = v.
Proof.
  apply (nth_ext _ _ s0 s0).
  - apply length_tabulate.
  - intros i Hi. rewrite length_tabulate in Hi.
    rewrite nth_tabulate by exact Hi. reflexivity.
Qed.

Lemma vnth_vscale (s : T) (v : Vector T) (i : nat) :
  i < length v -> vnth (vscale s v) i = smul s (vnth v i).
Proof.
  intros Hi. unfold vnth, vscale.
  rewrite (nth_indep _ s0 (smul s s0)) by (rewrite length_map; exact Hi).
  apply map_nth.
Qed.

Lemma vnth_vzero (n j : nat) : vnth (vzero (T:=T) n) j = s0.
Proof. unfold vnth, vzero. apply nth_repeat. Qed.


Lemma cubature_step_spec (mean0 : Vector T) (l pts : Matrix T) (i : nat) :
  rows l = length mean0 -> cols l = length mean0 ->
  i < length mean0 ->
  points_upto mean0 l i pts ->
  exists pts', cubature_step (length mean0) mean0 l i pts = Done pts'
               /\ points_upto mean0 l (S i) pts'.
Proof.
  intros Hr Hc Hi (Pr & Pc & Pv).
  set (n := length mean0) in *.
  unfold cubature_step, vadd, vsub.
  rewrite (col_Done l) by lia. simpl.
  rewrite vzip_Done by (rewrite length_tabulate; lia). simpl.
  rewrite set_row_Done by (rewrite ?length_tabulate; lia). simpl.
  rewrite vzip_Done by (rewrite length_tabulate; lia). simpl.
  rewrite set_row_Done by (simpl; rewrite ?length_tabulate; fold n; lia).
  eexists. split; [reflexivity |].
  unfold points_upto. fold n. simpl. rewrite Pr, Pc, Hr.
  split; [reflexivity | split; [reflexivity |]].
  intros k j Hk Hj. split.
  - rewrite get_mk by lia.
    replace (k =? n + i) with false by (symmetry; apply Nat.eqb_neq; lia).
    rewrite get_mk by lia.
    destruct (k =? i) eqn:E.
    + apply Nat.eqb_eq in E. subst k.
      rewrite vnth_tabulate by (fold n; lia).
      rewrite vnth_tabulate by lia. reflexivity.
    + apply Nat.eqb_neq in E. apply Pv; lia.
  - rewrite get_mk by lia.
    destruct (n + k =? n + i) eqn:E.
    + apply Nat.eqb_eq in E. assert (k = i) by lia. subst k.
      rewrite vnth_tabulate by (fold n; lia).
      rewrite vnth_tabulate by lia. reflexivity.
    + apply Nat.eqb_neq in E. rewrite get_mk by lia.
      replace (n + k =? i) with false by (symmetry; apply Nat.eqb_neq; lia).
      apply Pv; lia.
Qed.

Lemma computeCubaturePoints_spec (mean0 : Vector T) (cov0 pts : Matrix T) :
  let n := length mean0 in
  let l := mscale_r (matrixL cov0) (ssqrt (of_Z (Z.of_nat n))) in
  rows cov0 = n -> cols cov0 = n -> rows pts = 2 * n -> cols pts = n ->
  exists pts', computeCubaturePoints mean0 cov0 pts = Done pts'
               /\ points_upto mean0 l n pts'.
Proof.
  intros n l Hr Hc Pr Pc. unfold computeCubaturePoints. fold n.
  apply Nat.eqb_eq in Hr as Hr'. apply Nat.eqb_eq in Hc as Hc'.
  rewrite Hr', Hc'. simpl. fold l.
  destruct (@for_loop_invariant _ (points_upto mean0 l)
              (cubature_step n mean0 l) n 0 pts) as (pts' & E & HI).
  - split; [exact Pr | split; [exact Pc |]]. intros k j Hk. lia.
  - intros i a Hi HI. apply cubature_step_spec; try lia; try exact HI.
    + unfold l. simpl. exact Hr.
    + unfold l. simpl. exact Hc.
  - exists pts'. split; [exact E | exact HI].
Qed.

(** The value of the loop [mean_pred += w[i] * pts.row(i)]. *)
Lemma mean_loop_value (w : Vector T) (pts : Matrix T) :
  forall count start acc,
    start + count <= length w -> start + count <= rows pts ->
    length acc = cols pts ->
    for_loop start count (mean_step w pts) acc =
    Done (tabulate (cols pts)
            (fun j => fold_left
                        (fun a i => sadd a (smul (vnth w i) (get pts i j)))
                        (seq start count) (vnth acc j))).
Proof.
  induction count as [|count IH]; intros start acc Hw Hp Ha; simpl.
  - rewrite <- Ha. rewrite tabulate_vnth. reflexivity.
  - unfold mean_step at 1. unfold vadd.
    rewrite vget_Done by lia. simpl.
    rewrite row_Done by lia. simpl.
    rewrite vzip_Done
      by (unfold vscale; rewrite length_map, length_tabulate; exact Ha).
    simpl. rewrite IH; try lia; [| rewrite length_tabulate; exact Ha].
    f_equal. apply tabulate_ext. intros j Hj. f_equal.
    rewrite vnth_tabulate by lia.
    rewrite vnth_vscale by (rewrite length_tabulate; exact Hj).
    rewrite vnth_tabulate by exact Hj. reflexivity.
Qed.

End Cubature.

(* ================================================================== *)
(** ** The weighted mean of freshly generated points *)

Section Exact.

Context {T : Type} {Sc : Scalar T} {Sv : Solvers T} {Ex : ExactScalar T}.

Add Field scalar_field_structure : scalar_field.


Lemma of_nat_succ (n : nat) :
  of_Z (Z.of_nat (S n)) = sadd (of_Z (Z.of_nat n)) s1.
Proof.
  rewrite Nat2Z.inj_succ, <- Z.add_1_r. apply of_Z_succ. lia.
Qed.

Lemma of_nat_add (a b : nat) :
  of_Z (Z.of_nat (a + b)) = sadd (of_Z (Z.of_nat a)) (of_Z (Z.of_nat b)).
Proof.
  induction b as [|b IH].
  - rewrite Nat.add_0_r. simpl. rewrite of_Z_0. ring.
  - rewrite Nat.add_succ_r, !of_nat_succ, IH. ring.
Qed.





Lemma ssum_zero (n : nat) (g : nat -> T) :
  (forall k, k < n -> g k = s0) -> ssum n g = s0.
Proof.
  intros H. destruct n as [|n]; [reflexivity |]. simpl.
  rewrite (H 0) by lia.
  assert (G : forall l x, (forall k, In k l -> g k = s0) ->
                          fold_left (fun acc k => sadd acc (g k)) l x = x).
  { induction l as [|k l IH]; simpl; intros x Hl; [reflexivity |].
    rewrite IH by (intros k' Hk'; apply Hl; right; exact Hk').
    rewrite (Hl k) by (left; reflexivity). ring. }
  apply G. intros k Hk. apply in_seq in Hk. apply H. lia.
Qed.

(** Lines 144 and 147 on their own: with a gain of fitting size and a
    measurement equal to the expected measurement mean, the new mean is
    the leading part of the augmented mean. *)
Lemma update_mean_zero_innovation (st : Filter) (g : Matrix T)
      (ext_mean_pred expected_measurement_mean : Vector T) :
  cols g = length expected_measurement_mean ->
  rows g = length ext_mean_pred ->
  N_ st <= length ext_mean_pred ->
  update_mean st g ext_mean_pred expected_measurement_mean
              expected_measurement_mean
  = Done (firstn (N_ st) ext_mean_pred).
Proof.
  intros Hc Hr HN. unfold update_mean, vsub, vadd.
  rewrite vzip_Done by reflexivity. simpl.
  unfold mvmul. rewrite length_tabulate.
  apply Nat.eqb_eq in Hc as Hc'. rewrite Hc'. simpl.
  rewrite vzip_Done by (rewrite length_tabulate; lia). simpl.
  unfold head_segment. rewrite length_tabulate.
  apply Nat.leb_le in HN as HN'. rewrite HN'. f_equal. f_equal.
  transitivity (tabulate (length ext_mean_pred) (vnth ext_mean_pred));
    [| apply tabulate_vnth].
  apply tabulate_ext. intros i Hi.
  rewrite vnth_tabulate by lia.
  rewrite ssum_zero; [ring |].
  intros k Hk. rewrite vnth_tabulate by lia. ring.
Qed.

Lemma of_Z_two : of_Z 2 = sadd s1 s1.
Proof.
  change 2%Z with (0 + 1 + 1)%Z.
  rewrite !of_Z_succ, of_Z_0 by lia. ring.
Qed.

(** [(1/2) * n] is not [1 / (2 * n)] once [n] is at least 2. *)
Lemma half_dimension_not_reciprocal (n : nat) :
  2 <= n ->
  smul (sdiv s1 (of_Z 2)) (of_Z (Z.of_nat n))
  <> sdiv s1 (of_Z (Z.of_nat (2 * n))).
Proof.
  intros Hn E.
  destruct n as [|m]; [lia |].
  set (x := of_Z (Z.of_nat (S m))) in *.
  assert (Hx2 : of_Z (Z.of_nat (2 * S m)) = sadd x x).
  { replace (2 * S m) with (S m + S m) by lia. apply of_nat_add. }
  assert (Htwo : sadd s1 s1 <> s0)
    by (rewrite <- of_Z_two; apply of_Z_pos; lia).
  assert (Hxx : sadd x x <> s0)
    by (rewrite <- Hx2; apply of_Z_pos; lia).
  assert (Hm : ssub x s1 <> s0).
  { unfold x. rewrite of_nat_succ.
    replace (ssub (sadd (of_Z (Z.of_nat m)) s1) s1) with (of_Z (Z.of_nat m))
      by ring.
    apply of_Z_pos. lia. }
  assert (Hp : sadd x s1 <> s0).
  { unfold x. rewrite <- of_nat_succ. apply of_Z_pos. lia. }
  rewrite Hx2, of_Z_two in E.
  assert (Hsq : smul x x = s1).
  { transitivity (smul (smul (sdiv s1 (sadd s1 s1)) x) (sadd x x)).
    - field. exact Htwo.
    - rewrite E. field. exact Hxx. }
  apply Hp.
  transitivity (smul (sdiv s1 (ssub x s1)) (ssub (smul x x) s1)).
  - field. exact Hm.
  - rewrite Hsq. field. exact Hm.
Qed.

End Exact.

(* ================================================================== *)
(** ** Properties of the filter, for every scalar type and system *)

Section Properties.

Context {T : Type} {Sc : Scalar T} {Sv : Solvers T}.



(** C7, as the code has it.  [computeCubaturePoints] does not read the
    status of the factorisation: when the sizes agree it completes and
    writes its 2n points from [matrixL], also when the factorisation
    reports that the covariance is not positive definite. *)
Theorem sampling_ignores_factorization_status
        (mean0 : Vector T) (cov0 pts : Matrix T) :
  let n := length mean0 in
  rows cov0 = n -> cols cov0 = n -> rows pts = 2 * n -> cols pts = n ->
  llt_info cov0 <> Success ->
  exists pts',
    computeCubaturePoints mean0 cov0 pts = Done pts'
    /\ points_upto mean0
                   (mscale_r (matrixL cov0) (ssqrt (of_Z (Z.of_nat n))))
                   n pts'.
Proof.
  intros n Hr Hc Pr Pc _.
  exact (computeCubaturePoints_spec mean0 cov0 pts Hr Hc Pr Pc).
Qed.

(** C9.  [ensurePositiveFinite] returns its argument unchanged, so the
    matrix that [predict] factors is the filter covariance and the one
    that [correct] factors is the augmented covariance, as they are. *)
Theorem ensurePositiveFinite_leaves_covariance :
  (forall cov0 : Matrix T, ensurePositiveFinite cov0 = cov0)
  /\ (forall st : Filter,
        predict_sample st
        = computeCubaturePoints (mean st) (cov st) (cubature_points st))
  /\ (forall (st : Filter) (ext_mean_pred : Vector T) (ext_cov_pred : Matrix T),
        correct_sample st ext_mean_pred ext_cov_pred
        = computeCubaturePoints ext_mean_pred ext_cov_pred
                                (ext_cubature_points st)).
Proof.
  split; [| split]; intros; reflexivity.
Qed.

(** C2, what the code does.  The constructor's loop stores
    [1.0 / 2*(N+K)], which is [(1/2) * (N+K)], in every one of the
    2(N+K) extended weights; with exact scalars and N, K at least 1 this
    is not [1 / (2*(N+K))]. *)
Theorem ext_weights_are_half_the_dimension
        (Ex : ExactScalar T)
        (state_dim input_dim measurement_dim : Z)
        (process_noise0 measurement_noise0 : Matrix T)
        (mean0 : Vector T) (cov0 : Matrix T) :
  (1 <= state_dim)%Z -> (1 <= measurement_dim)%Z ->
  (2 * (state_dim + measurement_dim) <= int_max)%Z ->
  let d := (state_dim + measurement_dim)%Z in
  exists st : Filter,
    CubatureKalmanFilterX state_dim input_dim measurement_dim
                          process_noise0 measurement_noise0 mean0 cov0
    = Done st
    /\ ext_weights st
       = repeat (smul (sdiv s1 (of_Z 2)) (of_Z d)) (Z.to_nat (2 * d))
    /\ smul (sdiv s1 (of_Z 2)) (of_Z d) <> sdiv s1 (of_Z (2 * d)).
Proof.
  intros HN HK Hfit d. unfold CubatureKalmanFilterX, sizes_fit.
  replace (0 <=? state_dim)%Z with true by (symmetry; apply Z.leb_le; lia).
  replace (0 <=? measurement_dim)%Z with true
    by (symmetry; apply Z.leb_le; lia).
  replace (2 * (state_dim + measurement_dim) <=? int_max)%Z with true
    by (symmetry; apply Z.leb_le; exact Hfit).
  cbn [andb check bind]. eexists. split; [reflexivity |]. cbn [ext_weights].
  assert (Hd : Z.of_nat (Z.to_nat state_dim + Z.to_nat measurement_dim) = d)
    by (unfold d; lia).
  rewrite Hd. split.
  - f_equal. unfold d. lia.
  - replace d with (Z.of_nat (Z.to_nat d)) by (unfold d; lia).
    replace (2 * Z.of_nat (Z.to_nat d))%Z
      with (Z.of_nat (2 * Z.to_nat d)) by lia.
    apply half_dimension_not_reciprocal. unfold d. lia.
Qed.

Variable system : System T.

Lemma predict_all_kalman_gain (controls : list (Vector T)) :
  forall st st' : Filter,
    predict_all system st controls = Done st' ->
    kalman_gain st' = kalman_gain st.
Proof.
  induction controls as [|u us IH]; simpl; intros st st' E.
  - injection E as <-. reflexivity.
  - apply bind_Done_inv in E. destruct E as (st1 & E1 & E2).
    apply IH in E2. apply predict_frame in E1.
    rewrite E2. tauto.
Qed.

(** C10.  After construction and any run of [predict] calls,
    [getKalmanGain] is the default-constructed 0 x 0 matrix. *)
Theorem kalman_gain_empty_before_correct
        (state_dim input_dim measurement_dim : Z)
        (process_noise0 measurement_noise0 : Matrix T)
        (mean0 : Vector T) (cov0 : Matrix T)
        (controls : list (Vector T)) (st0 st : Filter) :
  CubatureKalmanFilterX state_dim input_dim measurement_dim
                        process_noise0 measurement_noise0 mean0 cov0
  = Done st0 ->
  predict_all system st0 controls = Done st ->
  getKalmanGain st0 = empty_matrix
  /\ getKalmanGain st = empty_matrix
  /\ rows (getKalmanGain st) = 0 /\ cols (getKalmanGain st) = 0.
Proof.
  intros E0 E. unfold CubatureKalmanFilterX in E0.
  apply bind_Done_inv in E0. destruct E0 as (u & _ & E0).
  injection E0 as <-.
  apply predict_all_kalman_gain in E. unfold getKalmanGain.
  rewrite E. simpl. auto.
Qed.

(** C8, what the code does.  No call of [correct] completes, whatever
    the filter state, the measurement and the binding of [mean_pred]:
    the cross covariance of lines 136-139 cannot be formed, so the
    update of mean and covariance is never reached. *)
Theorem correct_never_completes
        (mean_pred : Matrix T) (st : Filter) (measurement : Vector T) :
  aborts (correct system mean_pred st measurement).
Proof.
  unfold correct.
  apply bind_aborts_r. intros ext_mean_pred E1.
  apply bind_aborts_r. intros ext_cov_pred _.
  apply bind_aborts_r. intros xpts _.
  apply bind_aborts_r. intros em _.
  apply bind_aborts_r. intros emm E2.
  apply bind_aborts_r. intros emc _.
  apply bind_aborts_l.
  apply cross_covariance_aborts.
  - apply augmented_mean_length. exact E1.
  - eapply expected_mean_length. exact E2.
Qed.

End Properties.

(* ================================================================== *)
(** ** The filter on rational inputs *)

Module Scenario.

Import QArith Qcanon Rational.
Local Open Scope Qc_scope.

Lemma Qc_of_Z_succ (z : Z) :
  Q2Qc (inject_Z (z + 1)) = Q2Qc (inject_Z z) + 1.
Proof.
  apply Qc_is_canon. unfold Qcplus. cbn [this Q2Qc].
  rewrite !Qred_correct, inject_Z_plus. reflexivity.
Qed.

Lemma Qc_of_Z_pos (z : Z) : (0 < z)%Z -> Q2Qc (inject_Z z) <> 0.
Proof.
  intros Hz E. apply (f_equal this) in E. cbn [this Q2Qc] in E.
  assert (H : Qred (inject_Z z) == Qred 0) by (rewrite E; reflexivity).
  rewrite !Qred_correct in H. unfold Qeq in H. simpl in H. lia.
Qed.

#[export] Instance Qc_Exact : ExactScalar Qc.
Proof.
  split.
  - exact Qcft.
  - apply Qc_is_canon. reflexivity.
  - intros z _. apply Qc_of_Z_succ.
  - exact Qc_of_Z_pos.
Qed.

(** Equalities between values built from [Qc] numbers. *)
Ltac qc_values :=
  repeat match goal with
         | |- @eq Qc _ _ => apply Qc_is_canon; vm_compute; reflexivity
         | |- Done _ = Done _ => f_equal
         | |- @eq (list _) (_ :: _) (_ :: _) => f_equal
         | |- @eq (Matrix _) (mkMatrix _ _ _) (mkMatrix _ _ _) => f_equal
         | |- _ = _ => reflexivity
         end.

Ltac run := vm_compute; qc_values.

(** The solvers on a 2 x 2 matrix: its Cholesky factor and its inverse. *)
Example solvers_on_spd2 :
  llt_info spd2 = Success
  /\ matrixL spd2 = matrix_of [[qc 2; qc 0]; [qc 1; qc 3]]
  /\ (l <- Done (matrixL spd2) ;; mmul l (transpose l)) = Done spd2
  /\ (inv <- inverse spd2 ;; mmul spd2 inv) = Done (identity 2).
Proof.
  split; [vm_compute; reflexivity |].
  split; [run |]. split; run.
Qed.

(** The predict step of the spec's scenario: mean 1, covariance 1.01. *)
Example scenario_predict :
  exists st st',
    scenario = Done st
    /\ predict additive st [qc 1] = Done st'
    /\ mean st' = [qc 1]
    /\ cov st' = matrix_of [[frac 101 100]].
Proof.
  eexists. eexists.
  split; [vm_compute; reflexivity |].
  split; [vm_compute; reflexivity |].
  split; run.
Qed.

(** The extended weights of the scenario: four entries, each 1. *)
Example scenario_ext_weights :
  exists st,
    scenario = Done st
    /\ ext_weights st = [qc 1; qc 1; qc 1; qc 1]
    /\ fold_left sadd (ext_weights st) s0 = qc 4.
Proof.
  eexists. split; [vm_compute; reflexivity |]. split; run.
Qed.

(** For one state the inner product of line 93 is the outer product. *)
Example inner_is_outer_for_one_state (m : Qc) :
  mmul (as_row [m]) (as_col [m]) = mmul (as_col [m]) (as_row [m]).
Proof. reflexivity. Qed.

(** *** Line 141 on its own *)

(** C1, what the code does.  [gain] does not read the expected
    measurement covariance; for a cross covariance 2 and an expected
    measurement covariance 4 it is 2 * 2^-1 = 1, while the cross
    covariance times the inverse of the expected measurement covariance
    is 1/2. *)
Theorem gain_inverts_the_cross_covariance :
  (forall cross_cov e e' : Matrix Qc, gain cross_cov e = gain cross_cov e')
  /\ gain (matrix_of [[qc 2]]) (matrix_of [[qc 4]])
     = Done (matrix_of [[qc 1]])
  /\ (inv <- inverse (matrix_of [[qc 4]]) ;; mmul (matrix_of [[qc 2]]) inv)
     = Done (matrix_of [[frac 1 2]])
  /\ matrix_of [[qc 1]] <> matrix_of [[frac 1 2]].
Proof.
  split; [intros; reflexivity |].
  split; [run |]. split; [run |].
  intros E. apply (f_equal (fun m => map (map this) (coeffs m))) in E.
  vm_compute in E. discriminate E.
Qed.

(** C4, what the code does.  With four states the points are generated
    and propagated and the predicted mean is formed, but line 93
    subtracts the 1 x 1 product [mean_pred.transpose() * mean_pred] from
    the 4 x 4 sum, and [predict] stops there. *)
Theorem predict_four_states_aborts :
  exists st pts mean_pred,
    four_states = Done st
    /\ (p <- predict_sample st ;;
        for_loop 0 (S_ st) (propagate_step additive zero4) p) = Done pts
    /\ predicted_mean st pts = Done mean_pred
    /\ mean_pred = zero4
    /\ for_loop 0 (S_ st) (outer_step (weights st) pts pts) (mzero 4 4)
       = Done (identity 4)
    /\ mmul (as_row mean_pred) (as_col mean_pred) = Done (matrix_of [[qc 0]])
    /\ predicted_cov st pts mean_pred = Abort size_mismatch
    /\ predict additive st zero4 = Abort size_mismatch.
Proof.
  eexists. eexists. eexists.
  split; [vm_compute; reflexivity |].
  split; [vm_compute; reflexivity |].
  split; [vm_compute; reflexivity |].
  split; [run |]. split; [run |]. split; [run |].
  split; vm_compute; reflexivity.
Qed.

(** C5, what the code does.  With two measurements [correct] reaches
    line 132 with a 2 x 2 sum and an expected mean of length 2; the
    product it subtracts there has one row whatever [mean_pred] is, and
    the step stops. *)
Theorem expected_cov_two_measurements_aborts :
  exists st ext_mean_pred ext_cov_pred xpts em expected_measurement_mean,
    two_by_two = Done st
    /\ augmented_mean st = Done ext_mean_pred
    /\ augmented_cov st = Done ext_cov_pred
    /\ correct_sample st ext_mean_pred ext_cov_pred = Done xpts
    /\ measure additive st xpts = Done em
    /\ expected_mean st xpts em = Done expected_measurement_mean
    /\ expected_measurement_mean = [qc 0; qc 0]
    /\ forall mean_pred : Matrix Qc,
        aborts (expected_cov mean_pred st xpts em expected_measurement_mean).
Proof.
  do 6 eexists.
  split; [vm_compute; reflexivity |].
  split; [vm_compute; reflexivity |].
  split; [vm_compute; reflexivity |].
  split; [vm_compute; reflexivity |].
  split; [vm_compute; reflexivity |].
  split; [vm_compute; reflexivity |].
  split; [run |].
  intros mean_pred.
  match goal with |- aborts ?c => destruct c as [a|e] eqn:E end.
  - exfalso.
    assert (H : completes (Done (A := Matrix Qc) a)) by (exists a; reflexivity).
    rewrite <- E in H. apply expected_cov_needs_K1 in H. discriminate H.
  - exists e. reflexivity.
Qed.

(** C6, what the code does.  With one measurement and [mean_pred] bound
    to a 1 x 1 matrix [correct] passes line 132; the first pass of the
    loop of lines 137-138 then adds a 4 x 1 product to the 3 x 1
    accumulator, and the cross covariance is not formed. *)
Theorem cross_covariance_three_by_one_aborts :
  exists st ext_mean_pred ext_cov_pred xpts em expected_measurement_mean,
    three_by_one = Done st
    /\ augmented_mean st = Done ext_mean_pred
    /\ augmented_cov st = Done ext_cov_pred
    /\ correct_sample st ext_mean_pred ext_cov_pred = Done xpts
    /\ measure first_coordinate st xpts = Done em
    /\ expected_mean st xpts em = Done expected_measurement_mean
    /\ expected_measurement_mean = [qc 0]
    /\ expected_cov (matrix_of [[qc 0]]) st xpts em expected_measurement_mean
       = Done (matrix_of [[qc 33]])
    /\ outer_step (ext_weights st) xpts em 0 (mzero 3 1) = Abort size_mismatch
    /\ cross_covariance st xpts em ext_mean_pred expected_measurement_mean
       = Abort size_mismatch
    /\ correct first_coordinate (matrix_of [[qc 0]]) st [qc 0]
       = Abort size_mismatch.
Proof.
  do 6 eexists.
  split; [vm_compute; reflexivity |].
  split; [vm_compute; reflexivity |].
  split; [vm_compute; reflexivity |].
  split; [vm_compute; reflexivity |].
  split; [vm_compute; reflexivity |].
  split; [vm_compute; reflexivity |].
  split; [run |]. split; [run |].
  split; [vm_compute; reflexivity |].
  split; vm_compute; reflexivity.
Qed.

(** C7 fails as stated: the factorisation of the covariance -1 reports
    [NumericalIssue], and [predict] completes all the same, with the
    points -1 and 1 and the covariance 1. *)
Lemma predict_samples_indefinite_covariance :
  llt_info (matrix_of [[qc (-1)]]) = NumericalIssue
  /\ exists st st',
      indefinite = Done st
      /\ cov st = matrix_of [[qc (-1)]]
      /\ predict additive st [qc 0] = Done st'
      /\ cubature_points st' = matrix_of [[qc (-1)]; [qc 1]]
      /\ mean st' = [qc 0]
      /\ cov st' = matrix_of [[qc 1]].
Proof.
  split; [vm_compute; reflexivity |].
  eexists. eexists.
  split; [vm_compute; reflexivity |].
  split; [run |].
  split; [vm_compute; reflexivity |].
  split; [run |]. split; run.
Qed.

(** *** Instances of the general theorems *)





(** C7, amended, on one state with covariance -1. *)
Lemma sampling_ignores_factorization_status_witness :
  rows (matrix_of [[qc (-1)]]) = 1%nat /\ cols (matrix_of [[qc (-1)]]) = 1%nat
  /\ rows (mzero (T := Qc) 2 1) = 2%nat /\ cols (mzero (T := Qc) 2 1) = 1%nat
  /\ llt_info (matrix_of [[qc (-1)]]) <> Success
  /\ exists pts',
      computeCubaturePoints [qc 0] (matrix_of [[qc (-1)]]) (mzero 2 1)
      = Done pts'
      /\ points_upto [qc 0]
                     (mscale_r (matrixL (matrix_of [[qc (-1)]]))
                               (ssqrt (of_Z 1)))
                     1 pts'.
Proof.
  assert (H : llt_info (matrix_of [[qc (-1)]]) <> Success)
    by (vm_compute; discriminate).
  split; [reflexivity |]. split; [reflexivity |].
  split; [reflexivity |]. split; [reflexivity |].
  split; [exact H |].
  exact (@sampling_ignores_factorization_status Qc _ _
           [qc 0] (matrix_of [[qc (-1)]]) (mzero 2 1)
           eq_refl eq_refl eq_refl eq_refl H).
Defined.

(** C2 on the filter of the scenario, N = K = 1. *)
Lemma ext_weights_are_half_the_dimension_witness :
  (1 <= 1)%Z /\ (2 * (1 + 1) <= int_max)%Z
  /\ exists st : Filter,
      scenario = Done st
      /\ ext_weights st
         = repeat (smul (sdiv s1 (of_Z 2)) (of_Z (1 + 1))) (Z.to_nat (2 * (1 + 1)))
      /\ smul (sdiv s1 (of_Z 2)) (of_Z (1 + 1)) <> sdiv s1 (of_Z (2 * (1 + 1))).
Proof.
  assert (H1 : (1 <= 1)%Z) by lia.
  assert (H2 : (2 * (1 + 1) <= int_max)%Z) by (vm_compute; discriminate).
  split; [exact H1 |]. split; [exact H2 |].
  exact (@ext_weights_are_half_the_dimension Qc _ Qc_Exact 1 1 1
           (matrix_of [[frac 1 100]]) (matrix_of [[frac 1 10]])
           [qc 0] (matrix_of [[qc 1]]) H1 H1 H2).
Defined.

(** C10 on one state with covariance 1 and process noise 3, and two
    [predict] calls. *)
Lemma kalman_gain_empty_before_correct_witness :
  exists st0 st,
    squares = Done st0
    /\ predict_all additive st0 [[qc 1]; [qc 1]] = Done st
    /\ getKalmanGain st = empty_matrix
    /\ rows (getKalmanGain st) = 0%nat /\ cols (getKalmanGain st) = 0%nat.
Proof.
  assert (H : exists st0 st,
             squares = Done st0
             /\ predict_all additive st0 [[qc 1]; [qc 1]] = Done st).
  { eexists. eexists.
    split; [vm_compute; reflexivity | vm_compute; reflexivity]. }
  destruct H as (st0 & st & E0 & E).
  exists st0, st. split; [exact E0 |]. split; [exact E |].
  exact (proj2 (@kalman_gain_empty_before_correct Qc _ _ additive 1 1 1
                  (matrix_of [[qc 3]]) (matrix_of [[frac 1 10]])
                  [qc 0] (matrix_of [[qc 1]]) [[qc 1]; [qc 1]] st0 st E0 E)).
Defined.

(** The two steps above take the roots of 1 and of 4 only. *)
Example squares_predicted_twice :
  exists st0 st1 st2,
    squares = Done st0
    /\ predict additive st0 [qc 1] = Done st1
    /\ cov st1 = matrix_of [[qc 4]]
    /\ predict additive st1 [qc 1] = Done st2
    /\ mean st2 = [qc 2]
    /\ cov st2 = matrix_of [[qc 7]].
Proof.
  do 3 eexists.
  split; [vm_compute; reflexivity |].
  split; [vm_compute; reflexivity |]. split; [run |].
  split; [vm_compute; reflexivity |]. split; run.
Qed.

End Scenario.

(* ================================================================== *)
(** ** More on cubature-point generation *)

Section Sampling.

Context {T : Type} {Sc : Scalar T} {Sv : Solvers T}.

Lemma set_row_Done_inv (m m' : Matrix T) (i : nat) (v : Vector T) :
  set_row m i v = Done m' ->
  i < rows m /\ length v = cols m
  /\ rows m' = rows m /\ cols m' = cols m.
Proof.
  unfold set_row. intros E.
  apply bind_Done_inv in E. destruct E as (u1 & E1 & E).
  apply bind_Done_inv in E. destruct E as (u2 & E2 & E).
  apply check_Done_inv in E1. apply check_Done_inv in E2.
  apply Nat.ltb_lt in E1. apply Nat.eqb_eq in E2.
  injection E as <-. simpl. auto.
Qed.

Lemma cubature_step_Done_inv (n : nat) (mean0 : Vector T) (l : Matrix T)
      (i : nat) (pts pts' : Matrix T) :
  cubature_step n mean0 l i pts = Done pts' ->
  rows pts' = rows pts /\ cols pts' = cols pts
  /\ n + i < rows pts /\ cols pts = length mean0.
Proof.
  unfold cubature_step. intros E.
  apply bind_Done_inv in E. destruct E as (c & _ & E).
  apply bind_Done_inv in E. destruct E as (p & Ep & E).
  apply bind_Done_inv in E. destruct E as (p1 & E1 & E).
  apply bind_Done_inv in E. destruct E as (c' & _ & E).
  apply bind_Done_inv in E. destruct E as (q & _ & E).
  apply vzip_Done_inv in Ep.
  apply set_row_Done_inv in E1. apply set_row_Done_inv in E.
  destruct Ep as [_ Ep]. destruct E1 as (_ & A1 & A2 & A3).
  destruct E as (B0 & _ & B2 & B3).
  rewrite B2, B3, A2, A3. rewrite A2 in B0. repeat split; try lia.
Qed.

Lemma cubature_loop_Done_inv (n : nat) (mean0 : Vector T) (l : Matrix T) :
  forall count start pts pts',
    for_loop start count (cubature_step n mean0 l) pts = Done pts' ->
    rows pts' = rows pts /\ cols pts' = cols pts
    /\ (0 < count ->
        n + (start + count - 1) < rows pts /\ cols pts = length mean0).
Proof.
  induction count as [|count IH]; simpl; intros start pts pts' E.
  - injection E as <-. repeat split; lia.
  - apply bind_Done_inv in E. destruct E as (p1 & E1 & E).
    apply cubature_step_Done_inv in E1. destruct E1 as (R1 & C1 & B1 & L1).
    apply IH in E. destruct E as (R2 & C2 & H2).
    rewrite R2, C2, R1, C1. split; [reflexivity |]. split; [reflexivity |].
    intros _. split; [| exact L1].
    destruct count as [|count]; [lia |].
    destruct H2 as [H2 _]; [lia |]. rewrite R1 in H2. lia.
Qed.

(** The points written into a buffer of at least 2n rows, and the rows
    left as they were. *)
Lemma cubature_step_frame (mean0 : Vector T) (l pts0 pts : Matrix T) (i : nat) :
  let n := length mean0 in
  let I := fun (i : nat) (p : Matrix T) =>
    rows p = rows pts0 /\ cols p = n
    /\ (forall k j, k < i -> j < n ->
          get p k j = sadd (vnth mean0 j) (get l j k)
          /\ get p (n + k) j = ssub (vnth mean0 j) (get l j k))
    /\ (forall k j, 2 * n <= k < rows pts0 -> j < n ->
          get p k j = get pts0 k j) in
  rows l = n -> cols l = n -> 2 * n <= rows pts0 -> i < n ->
  I i pts ->
  exists pts', cubature_step n mean0 l i pts = Done pts' /\ I (S i) pts'.
Proof.
  intros n I Hr Hc Hrows Hi (Pr & Pc & Pv & Pf).
  unfold cubature_step, vadd, vsub.
  rewrite (col_Done l) by lia. simpl.
  rewrite vzip_Done by (rewrite length_tabulate; lia). simpl.
  rewrite set_row_Done by (rewrite ?length_tabulate; fold n; lia). simpl.
  rewrite vzip_Done by (rewrite length_tabulate; lia). simpl.
  rewrite set_row_Done by (simpl; rewrite ?length_tabulate; fold n; lia).
  eexists. split; [reflexivity |].
  unfold I. simpl. rewrite Pr, Pc, Hr. fold n.
  split; [reflexivity |]. split; [reflexivity |]. split.
  - intros k j Hk Hj. split.
    + rewrite get_mk by lia.
      replace (k =? n + i) with false by (symmetry; apply Nat.eqb_neq; lia).
      rewrite get_mk by lia.
      destruct (k =? i) eqn:E.
      * apply Nat.eqb_eq in E. subst k.
        rewrite vnth_tabulate by lia.
        rewrite vnth_tabulate by lia. reflexivity.
      * apply Nat.eqb_neq in E. apply Pv; lia.
    + rewrite get_mk by lia.
      destruct (n + k =? n + i) eqn:E.
      * apply Nat.eqb_eq in E. assert (k = i) by lia. subst k.
        rewrite vnth_tabulate by lia.
        rewrite vnth_tabulate by lia. reflexivity.
      * apply Nat.eqb_neq in E. rewrite get_mk by lia.
        replace (n + k =? i) with false by (symmetry; apply Nat.eqb_neq; lia).
        apply Pv; lia.
  - intros k j Hk Hj. rewrite get_mk by lia.
    replace (k =? n + i) with false by (symmetry; apply Nat.eqb_neq; lia).
    rewrite get_mk by lia.
    replace (k =? i) with false by (symmetry; apply Nat.eqb_neq; lia).
    apply Pf; lia.
Qed.

Lemma computeCubaturePoints_Done_inv
      (mean0 : Vector T) (cov0 pts pts' : Matrix T) :
  computeCubaturePoints mean0 cov0 pts = Done pts' ->
  rows cov0 = length mean0 /\ cols cov0 = length mean0
  /\ (length mean0 = 0
      \/ (2 * length mean0 <= rows pts /\ cols pts = length mean0)).
Proof.
  intros E. unfold computeCubaturePoints in E.
  apply bind_Done_inv in E. destruct E as (u & E0 & E).
  apply check_Done_inv in E0. apply andb_true_iff in E0.
  destruct E0 as [E1 E2]. apply Nat.eqb_eq in E1. apply Nat.eqb_eq in E2.
  split; [exact E1 |]. split; [exact E2 |].
  apply cubature_loop_Done_inv in E. destruct E as (_ & _ & H).
  destruct (length mean0) as [|n'] eqn:En; [left; reflexivity | right].
  destruct H as [H1 H2]; [lia |]. split; [lia | exact H2].
Qed.

Lemma computeCubaturePoints_general
      (mean0 : Vector T) (cov0 pts : Matrix T) :
  let n := length mean0 in
  let l := mscale_r (matrixL cov0) (ssqrt (of_Z (Z.of_nat n))) in
  rows cov0 = n -> cols cov0 = n -> 2 * n <= rows pts -> cols pts = n ->
  exists pts',
    computeCubaturePoints mean0 cov0 pts = Done pts'
    /\ rows pts' = rows pts /\ cols pts' = n
    /\ (forall k j, k < n -> j < n ->
          get pts' k j = sadd (vnth mean0 j) (get l j k)
          /\ get pts' (n + k) j = ssub (vnth mean0 j) (get l j k))
    /\ (forall k j, 2 * n <= k < rows pts -> j < n ->
          get pts' k j = get pts k j).
Proof.
  intros n l Hr Hc H1 H2. unfold computeCubaturePoints. fold n.
  apply Nat.eqb_eq in Hr as Hr'. apply Nat.eqb_eq in Hc as Hc'.
  rewrite Hr', Hc'. simpl. fold l.
  destruct (@for_loop_invariant _
              (fun i p =>
                 rows p = rows pts /\ cols p = n
                 /\ (forall k j, k < i -> j < n ->
                       get p k j = sadd (vnth mean0 j) (get l j k)
                       /\ get p (n + k) j
                          = ssub (vnth mean0 j) (get l j k))
                 /\ (forall k j, 2 * n <= k < rows pts -> j < n ->
                       get p k j = get pts k j))
              (cubature_step n mean0 l) n 0 pts) as (pts' & E & HI).
  - split; [reflexivity |]. split; [exact H2 |].
    split; [intros k j Hk; lia | intros; reflexivity].
  - intros i a Hi HI.
    apply (@cubature_step_frame mean0 l pts a i); try lia;
      try exact HI; unfold l; simpl; assumption.
  - exists pts'. split; [exact E |]. exact HI.
Qed.

(** X1.  [computeCubaturePoints] completes exactly when the covariance
    is n x n for the dimension n of the mean and, unless n is 0, the
    buffer has at least 2n rows and exactly n columns. *)
Theorem computeCubaturePoints_completes_iff
        (mean0 : Vector T) (cov0 pts : Matrix T) :
  completes (computeCubaturePoints mean0 cov0 pts)
  <-> (rows cov0 = length mean0 /\ cols cov0 = length mean0
       /\ (length mean0 = 0
           \/ (2 * length mean0 <= rows pts /\ cols pts = length mean0))).
Proof.
  split.
  - intros [pts' E]. eapply computeCubaturePoints_Done_inv. exact E.
  - intros (Hr & Hc & [H0 | [H1 H2]]).
    + unfold computeCubaturePoints.
      apply Nat.eqb_eq in Hr as Hr'. apply Nat.eqb_eq in Hc as Hc'.
      rewrite Hr', Hc', H0. simpl. exists pts. reflexivity.
    + destruct (computeCubaturePoints_general mean0 cov0 pts Hr Hc H1 H2)
        as (pts' & E & _).
      exists pts'. exact E.
Qed.

(** X2.  [computeCubaturePoints] keeps the size of the buffer, and in a
    buffer with more than 2n rows it leaves every row from 2n on as it
    was. *)
Theorem computeCubaturePoints_frame
        (mean0 : Vector T) (cov0 pts pts' : Matrix T) :
  computeCubaturePoints mean0 cov0 pts = Done pts' ->
  rows pts' = rows pts /\ cols pts' = cols pts
  /\ forall k j, 2 * length mean0 <= k < rows pts -> j < cols pts ->
       get pts' k j = get pts k j.
Proof.
  intros E.
  destruct (computeCubaturePoints_Done_inv _ _ _ E)
    as (Hr & Hc & [H0 | [H1 H2]]).
  - unfold computeCubaturePoints in E.
    apply Nat.eqb_eq in Hr as Hr'. apply Nat.eqb_eq in Hc as Hc'.
    rewrite Hr', Hc', H0 in E. simpl in E. injection E as <-.
    repeat split; reflexivity.
  - destruct (computeCubaturePoints_general mean0 cov0 pts Hr Hc H1 H2)
      as (p & E' & A & B & _ & D).
    rewrite E in E'. injection E' as <-. rewrite A, B, H2.
    split; [reflexivity |]. split; [reflexivity |].
    intros k j Hk Hj. apply D; lia.
Qed.

End Sampling.

(* ================================================================== *)
(** ** The steps of [predict] and [correct] before the recombination *)

Section Steps.

Context {T : Type} {Sc : Scalar T} {Sv : Solvers T}.
Variable system : System T.

Lemma skipn_vzero (n k : nat) : skipn n (vzero (T := T) (n + k)) = vzero k.
Proof.
  unfold vzero. induction n as [|n IH]; simpl; [reflexivity | exact IH].
Qed.

Lemma get_mzero (r c i j : nat) : get (mzero (T := T) r c) i j = s0.
Proof.
  destruct (Nat.lt_ge_cases i r) as [Hi | Hi];
    destruct (Nat.lt_ge_cases j c) as [Hj | Hj].
  - unfold mzero. rewrite get_mk by assumption. reflexivity.
  - unfold get, mzero, mk. simpl.
    rewrite (nth_tabulate (fun _ => tabulate c (fun _ => s0)) [] Hi).
    apply nth_overflow. rewrite length_tabulate. exact Hj.
  - unfold get, mzero, mk. simpl.
    rewrite (nth_overflow (tabulate r _)) by (rewrite length_tabulate; exact Hi).
    destruct j; reflexivity.
  - unfold get, mzero, mk. simpl.
    rewrite (nth_overflow (tabulate r _)) by (rewrite length_tabulate; exact Hi).
    destruct j; reflexivity.
Qed.

(** X3.  The augmented mean is the filter mean followed by K zeros; when
    the mean does not have N entries the assignment to the leading block
    fails. *)
Theorem augmented_mean_value (st : Filter) :
  augmented_mean st
  = if length (mean st) =? N_ st
    then Done (mean st ++ vzero (K_ st))
    else Abort size_mismatch.
Proof.
  unfold augmented_mean, set_head_segment.
  rewrite length_vzero.
  replace (N_ st <=? N_ st + K_ st) with true
    by (symmetry; apply Nat.leb_le; lia).
  simpl. destruct (length (mean st) =? N_ st); simpl; [| reflexivity].
  rewrite skipn_vzero. reflexivity.
Qed.

(** X4.  For an N x N covariance and a K x K measurement noise the
    augmented covariance is the (N+K) x (N+K) block matrix with the
    covariance in the top-left block, the measurement noise in the
    bottom-right block and zeros elsewhere. *)
Theorem augmented_cov_blocks (st : Filter) :
  rows (cov st) = N_ st -> cols (cov st) = N_ st ->
  rows (measurement_noise st) = K_ st ->
  cols (measurement_noise st) = K_ st ->
  exists m,
    augmented_cov st = Done m
    /\ rows m = N_ st + K_ st /\ cols m = N_ st + K_ st
    /\ forall i j, i < N_ st + K_ st -> j < N_ st + K_ st ->
         get m i j
         = if (i <? N_ st) && (j <? N_ st) then get (cov st) i j
           else if (N_ st <=? i) && (N_ st <=? j)
                then get (measurement_noise st) (i - N_ st) (j - N_ st)
                else s0.
Proof.
  intros Hr Hc Rr Rc. unfold augmented_cov, set_topLeftCorner.
  simpl rows. simpl cols.
  replace (N_ st <=? N_ st + K_ st) with true
    by (symmetry; apply Nat.leb_le; lia).
  rewrite Hr, Hc, Nat.eqb_refl. simpl.
  unfold set_bottomRightCorner. simpl rows. simpl cols.
  replace (K_ st <=? N_ st + K_ st) with true
    by (symmetry; apply Nat.leb_le; lia).
  rewrite Rr, Rc, Nat.eqb_refl. simpl.
  eexists. split; [reflexivity |]. simpl.
  split; [reflexivity |]. split; [reflexivity |].
  intros i j Hi Hj. rewrite get_mk by assumption.
  rewrite Nat.add_sub. rewrite get_mk by assumption.
  rewrite get_mzero.
  destruct (i <? N_ st) eqn:A; destruct (j <? N_ st) eqn:B;
    destruct (N_ st <=? i) eqn:C; destruct (N_ st <=? j) eqn:D;
    simpl; try reflexivity;
    try apply Nat.ltb_lt in A; try apply Nat.ltb_lt in B;
    try apply Nat.leb_le in C; try apply Nat.leb_le in D; lia.
Qed.

(** X5.  The propagation loop of [predict] replaces each of the first S
    rows of the points by [f] of that row and the control, and leaves
    the size and every later row as they were. *)
Theorem propagate_rows (control : Vector T) (count : nat) (pts : Matrix T) :
  count <= rows pts ->
  (forall x, length x = cols pts -> length (f system x control) = cols pts) ->
  exists pts',
    for_loop 0 count (propagate_step system control) pts = Done pts'
    /\ rows pts' = rows pts /\ cols pts' = cols pts
    /\ (forall i, i < count ->
          row pts' i
          = r <- row pts i ;; Done (f system r control))
    /\ (forall i j, count <= i < rows pts -> j < cols pts ->
          get pts' i j = get pts i j).
Proof.
  intros Hcount Hf.
  destruct (@for_loop_invariant _
              (fun i p =>
                 rows p = rows pts /\ cols p = cols pts
                 /\ (forall k j, k < i -> j < cols pts ->
                       get p k j
                       = vnth (f system (tabulate (cols pts) (get pts k))
                                 control) j)
                 /\ (forall k j, i <= k < rows pts -> j < cols pts ->
                       get p k j = get pts k j))
              (propagate_step system control) count 0 pts)
    as (pts' & E & Pr & Pc & Pv & Pf).
  - split; [reflexivity |]. split; [reflexivity |].
    split; [intros k j Hk; lia | intros; reflexivity].
  - intros i a Hi (Ar & Ac & Av & Af).
    unfold propagate_step. rewrite row_Done by lia. simpl.
    assert (Erow : tabulate (cols a) (fun j => get a i j)
                   = tabulate (cols pts) (get pts i)).
    { rewrite Ac. apply tabulate_ext. intros j Hj. apply Af; lia. }
    rewrite Erow.
    rewrite set_row_Done by (rewrite ?Hf by apply length_tabulate; lia).
    eexists. split; [reflexivity |]. simpl. rewrite Ar, Ac.
    split; [reflexivity |]. split; [reflexivity |]. split.
    + intros k j Hk Hj. rewrite get_mk by lia.
      destruct (k =? i) eqn:Eki.
      * apply Nat.eqb_eq in Eki. subst k. reflexivity.
      * apply Nat.eqb_neq in Eki. apply Av; lia.
    + intros k j Hk Hj. rewrite get_mk by lia.
      replace (k =? i) with false by (symmetry; apply Nat.eqb_neq; lia).
      apply Af; lia.
  - exists pts'. split; [exact E |]. split; [exact Pr |]. split; [exact Pc |].
    split.
    + intros i Hi. rewrite !row_Done by lia. simpl. rewrite Pc. f_equal.
      transitivity
        (tabulate (cols pts)
           (vnth (f system (tabulate (cols pts) (get pts i)) control))).
      * apply tabulate_ext. intros j Hj. apply Pv; assumption.
      * rewrite <- (Hf (tabulate (cols pts) (get pts i))) at 1
          by apply length_tabulate.
        apply tabulate_vnth.
    + intros i j Hi Hj. apply Pf; lia.
Qed.

(** X6.  The measurement loop of [correct] fills row i of the expected
    measurements with [h] of the first N entries of augmented point i
    plus the last K entries of that point, for every augmented point, and
    leaves the remaining rows zero. *)
Theorem measure_rows (st : Filter) (xpts : Matrix T) :
  N_ st <= cols xpts -> K_ st <= cols xpts ->
  rows xpts <= rows (expected_measurements st) ->
  cols (expected_measurements st) = K_ st ->
  (forall x, length x = N_ st -> length (h system x) = K_ st) ->
  exists em,
    measure system st xpts = Done em
    /\ rows em = rows (expected_measurements st) /\ cols em = K_ st
    /\ (forall i, i < rows xpts ->
          row em i
          = r <- row xpts i ;;
            x <- head_segment r (N_ st) ;;
            noise <- tail_segment r (K_ st) ;;
            vadd (h system x) noise)
    /\ (forall i j, rows xpts <= i -> get em i j = s0).
Proof.
  intros HN HK Hrows Hcols Hh.
  set (E0 := expected_measurements st) in *.
  set (state_of :=
         fun k => firstn (N_ st) (tabulate (cols xpts) (fun j => get xpts k j))).
  set (noise_of :=
         fun k => skipn (cols xpts - K_ st)
                        (tabulate (cols xpts) (fun j => get xpts k j))).
  assert (Ln : forall k, length (noise_of k) = K_ st).
  { intros k. unfold noise_of. rewrite length_skipn, length_tabulate. lia. }
  assert (Lh : forall k, length (h system (state_of k)) = K_ st).
  { intros k. apply Hh. unfold state_of.
    rewrite length_firstn, length_tabulate. lia. }
  destruct (@for_loop_invariant _
              (fun i p =>
                 rows p = rows E0 /\ cols p = K_ st
                 /\ (forall k j, k < i -> j < K_ st ->
                       get p k j
                       = sadd (vnth (h system (state_of k)) j)
                              (vnth (noise_of k) j))
                 /\ (forall k j, i <= k -> get p k j = s0))
              (measure_step system st xpts) (rows xpts) 0
              (mzero (rows E0) (cols E0)))
    as (em & E & Pr & Pc & Pv & Pz).
  - simpl. split; [reflexivity |]. split; [exact Hcols |].
    split; [intros k j Hk; lia | intros; apply get_mzero].
  - intros i a Hi (Ar & Ac & Av & Az).
    unfold state_of, noise_of in *.
    unfold measure_step, head_segment, tail_segment, vadd.
    rewrite row_Done by lia. simpl. rewrite length_tabulate.
    apply Nat.leb_le in HN as HN'. rewrite HN'. simpl.
    rewrite set_row_Done by (rewrite ?Lh; lia). simpl.
    apply Nat.leb_le in HK as HK'. rewrite HK'. simpl.
    rewrite row_Done by (simpl; lia). simpl.
    rewrite vzip_Done by (rewrite length_tabulate, Ln; lia). simpl.
    rewrite set_row_Done by (simpl; rewrite ?length_tabulate; lia).
    eexists. split; [reflexivity |]. simpl. rewrite Ar, Ac.
    split; [reflexivity |]. split; [reflexivity |]. split.
    + intros k j Hk Hj. rewrite get_mk by lia.
      destruct (k =? i) eqn:Eki.
      * apply Nat.eqb_eq in Eki. subst k.
        rewrite length_tabulate.
        rewrite vnth_tabulate by lia. rewrite vnth_tabulate by lia.
        rewrite get_mk by lia. rewrite Nat.eqb_refl. reflexivity.
      * rewrite get_mk by lia. rewrite Eki.
        apply Nat.eqb_neq in Eki. apply Av; lia.
    + intros k j Hk.
      destruct (Nat.lt_ge_cases k (rows E0)) as [Hkr | Hkr];
        destruct (Nat.lt_ge_cases j (K_ st)) as [Hjc | Hjc].
      * rewrite get_mk by lia.
        replace (k =? i) with false by (symmetry; apply Nat.eqb_neq; lia).
        rewrite get_mk by lia.
        replace (k =? i) with false by (symmetry; apply Nat.eqb_neq; lia).
        apply Az. lia.
      * unfold get, mk. simpl.
        rewrite (nth_tabulate _ [] Hkr).
        apply nth_overflow. rewrite length_tabulate. exact Hjc.
      * unfold get, mk. simpl.
        rewrite (nth_overflow (tabulate (rows E0) _))
          by (rewrite length_tabulate; exact Hkr).
        destruct j; reflexivity.
      * unfold get, mk. simpl.
        rewrite (nth_overflow (tabulate (rows E0) _))
          by (rewrite length_tabulate; exact Hkr).
        destruct j; reflexivity.
  - exists em. unfold measure. fold E0.
    split; [exact E |]. split; [exact Pr |]. split; [exact Pc |]. split.
    + intros i Hi. unfold head_segment, tail_segment, vadd.
      rewrite !row_Done by lia. simpl. rewrite length_tabulate.
      apply Nat.leb_le in HN as HN'. rewrite HN'. simpl.
      apply Nat.leb_le in HK as HK'. rewrite HK'. simpl.
      unfold state_of, noise_of in *.
      rewrite vzip_Done by (rewrite Lh, Ln; reflexivity).
      rewrite Pc, Lh. f_equal. apply tabulate_ext.
      intros j Hj. apply Pv; assumption.
    + intros i j Hi. apply Pz. exact Hi.
Qed.

End Steps.

(* ================================================================== *)
(** ** What [predict] and the lines of [correct] need and keep *)

Section Shapes.

Context {T : Type} {Sc : Scalar T} {Sv : Solvers T}.
Variable system : System T.

Lemma propagate_step_size (control : Vector T) (i : nat) (p p' : Matrix T) :
  propagate_step system control i p = Done p' ->
  rows p' = rows p /\ cols p' = cols p.
Proof.
  unfold propagate_step. intros E.
  apply bind_Done_inv in E. destruct E as (r & _ & E).
  apply set_row_Done_inv in E. tauto.
Qed.

Lemma predicted_cov_Done_inv (st : Filter) (pts : Matrix T)
      (mean_pred0 : Vector T) (c : Matrix T) :
  predicted_cov st pts mean_pred0 = Done c ->
  rows (cov st) = 1 /\ cols (cov st) = 1
  /\ rows (process_noise st) = 1 /\ cols (process_noise st) = 1
  /\ rows c = 1 /\ cols c = 1.
Proof.
  unfold predicted_cov. intros E.
  apply bind_Done_inv in E. destruct E as (c0 & Ec & E).
  apply outer_loop_size with (r := rows (cov st)) (c := cols (cov st)) in Ec;
    [| split; reflexivity].
  apply bind_Done_inv in E. destruct E as (p & Ep & E).
  apply bind_Done_inv in E. destruct E as (c1 & E1 & E).
  apply mmul_Done_inv in Ep. apply mzip_Done_inv in E1.
  apply mzip_Done_inv in E. simpl in Ep. lia.
Qed.

(** X7.  [predict] completes only on a filter of one state: the mean has
    one entry and the covariance and the process noise are 1 x 1, and so
    are the mean and covariance it leaves. *)
Theorem predict_completes_only_for_one_state
        (st st' : Filter) (control : Vector T) :
  predict system st control = Done st' ->
  length (mean st) = 1
  /\ rows (cov st) = 1 /\ cols (cov st) = 1
  /\ rows (process_noise st) = 1 /\ cols (process_noise st) = 1
  /\ length (mean st') = 1
  /\ rows (cov st') = 1 /\ cols (cov st') = 1.
Proof.
  unfold predict. intros E.
  apply bind_Done_inv in E. destruct E as (p0 & E0 & E).
  apply bind_Done_inv in E. destruct E as (p1 & _ & E).
  apply bind_Done_inv in E. destruct E as (m1 & Em & E).
  apply bind_Done_inv in E. destruct E as (c1 & Ec & E).
  injection E as <-. simpl.
  unfold predict_sample, ensurePositiveFinite in E0.
  apply computeCubaturePoints_Done_inv in E0. destruct E0 as (A & _ & _).
  apply predicted_cov_Done_inv in Ec.
  unfold predicted_mean in Em.
  apply mean_loop_length with (n := length (mean st)) in Em;
    [| apply length_vzero].
  lia.
Qed.

(** X8.  A completed [predict] changes the mean, the covariance and the
    coefficients of the cubature points, and nothing else: every other
    member and the size of the point buffer are as before. *)
Theorem predict_changes_only_the_belief
        (st st' : Filter) (control : Vector T) :
  predict system st control = Done st' ->
  st' = set_prediction st (cubature_points st') (mean st') (cov st')
  /\ rows (cubature_points st') = rows (cubature_points st)
  /\ cols (cubature_points st') = cols (cubature_points st).
Proof.
  unfold predict. intros E.
  apply bind_Done_inv in E. destruct E as (p0 & E0 & E).
  apply bind_Done_inv in E. destruct E as (p1 & E1 & E).
  apply bind_Done_inv in E. destruct E as (m1 & _ & E).
  apply bind_Done_inv in E. destruct E as (c1 & _ & E).
  injection E as <-. simpl. split; [reflexivity |].
  unfold predict_sample, computeCubaturePoints in E0.
  apply bind_Done_inv in E0. destruct E0 as (u & _ & E0).
  apply cubature_loop_Done_inv in E0. destruct E0 as (R0 & C0 & _).
  apply (for_loop_preserves
           (fun p => rows p = rows p0 /\ cols p = cols p0)) in E1.
  - destruct E1 as [R1 C1]. rewrite R1, C1, R0, C0. split; reflexivity.
  - intros i a a' Ea [Ra Ca]. apply propagate_step_size in Ea.
    destruct Ea as [Ra' Ca']. rewrite Ra', Ca'. split; assumption.
  - split; reflexivity.
Qed.

(** X9.  The value of the predicted mean: coefficient j is the sum over
    the S points of [weights[i]] times coefficient j of point i, taken
    in the order of the loop. *)
Theorem predicted_mean_value (st : Filter) (pts : Matrix T) :
  S_ st <= length (weights st) -> S_ st <= rows pts ->
  length (mean st) = cols pts ->
  predicted_mean st pts
  = Done (tabulate (cols pts)
            (fun j =>
               fold_left
                 (fun acc i => sadd acc (smul (vnth (weights st) i)
                                              (get pts i j)))
                 (seq 0 (S_ st)) s0)).
Proof.
  intros Hw Hp Hm. unfold predicted_mean.
  rewrite mean_loop_value; [| lia | lia | rewrite length_vzero; exact Hm].
  f_equal. apply tabulate_ext. intros j Hj. rewrite vnth_vzero. reflexivity.
Qed.

(** X10.  The value of the expected measurement mean: coefficient j is
    the sum over all augmented points of [ext_weights[i]] times
    coefficient j of expected measurement i. *)
Theorem expected_mean_value (st : Filter) (xpts em : Matrix T) :
  rows xpts <= length (ext_weights st) -> rows xpts <= rows em ->
  cols em = K_ st ->
  expected_mean st xpts em
  = Done (tabulate (K_ st)
            (fun j =>
               fold_left
                 (fun acc i => sadd acc (smul (vnth (ext_weights st) i)
                                              (get em i j)))
                 (seq 0 (rows xpts)) s0)).
Proof.
  intros Hw Hp Hk. unfold expected_mean.
  rewrite mean_loop_value; [| lia | lia | rewrite length_vzero; lia].
  rewrite Hk. f_equal. apply tabulate_ext. intros j Hj.
  rewrite vnth_vzero. reflexivity.
Qed.

(** X11.  Line 132 completes only for one measurement, a 1 x 1
    measurement noise and a binding of [mean_pred] that is a single
    column with as many rows as the expected mean has entries. *)
Theorem expected_cov_completes_only_for_one_measurement
        (mean_pred : Matrix T) (st : Filter) (xpts em : Matrix T)
        (expected_measurement_mean : Vector T) (c : Matrix T) :
  expected_cov mean_pred st xpts em expected_measurement_mean = Done c ->
  K_ st = 1
  /\ rows mean_pred = length expected_measurement_mean
  /\ cols mean_pred = 1
  /\ rows (measurement_noise st) = 1 /\ cols (measurement_noise st) = 1
  /\ rows c = 1 /\ cols c = 1.
Proof.
  unfold expected_cov. intros E.
  apply bind_Done_inv in E. destruct E as (c0 & Ec & E).
  apply outer_loop_size with (r := K_ st) (c := K_ st) in Ec;
    [| split; reflexivity].
  apply bind_Done_inv in E. destruct E as (p & Ep & E).
  apply bind_Done_inv in E. destruct E as (c1 & E1 & E).
  apply mmul_Done_inv in Ep. apply mzip_Done_inv in E1.
  apply mzip_Done_inv in E. simpl in Ep. lia.
Qed.

(** X12.  Line 141 completes exactly for a square cross covariance, and
    the gain it gives is square of the same size: it is N x K only when
    N = K. *)
Theorem gain_is_square (cross_cov expected_measurement_cov : Matrix T) :
  (completes (gain cross_cov expected_measurement_cov)
   <-> rows cross_cov = cols cross_cov)
  /\ forall g, gain cross_cov expected_measurement_cov = Done g ->
               rows g = rows cross_cov /\ cols g = rows cross_cov.
Proof.
  unfold gain, inverse, mmul. split; [split |].
  - intros [g E]. destruct (rows cross_cov =? cols cross_cov) eqn:Eq.
    + apply Nat.eqb_eq in Eq. exact Eq.
    + discriminate E.
  - intros Eq. rewrite Eq, Nat.eqb_refl. simpl. rewrite Nat.eqb_refl.
    eexists. reflexivity.
  - intros g E. destruct (rows cross_cov =? cols cross_cov) eqn:Eq;
      [| discriminate E].
    apply Nat.eqb_eq in Eq. simpl in E. rewrite Eq, Nat.eqb_refl in E.
    injection E as <-. simpl. rewrite Eq. split; reflexivity.
Qed.

End Shapes.

(* ================================================================== *)
(** ** A filter of one state *)

Section OneState.

Context {T : Type} {Sc : Scalar T} {Sv : Solvers T}.
Variable system : System T.

Ltac evaluate :=
  cbv -[sadd ssub smul sdiv ssqrt of_Z s0 s1 f h llt_compute].

(** [predict] on one state, coefficient by coefficient: the two points
    [m + l] and [m - l], their images [y0], [y1] under a transition that
    is affine for this control, and the sums of lines 88-94. *)
Lemma predict_one_state (st : Filter) (m a bu w : T) (control : Vector T) :
  S_ st = 2 -> weights st = [w; w] -> mean st = [m] ->
  rows (cov st) = 1 -> cols (cov st) = 1 ->
  rows (process_noise st) = 1 -> cols (process_noise st) = 1 ->
  rows (cubature_points st) = 2 -> cols (cubature_points st) = 1 ->
  (forall x, f system [x] control = [sadd (smul a x) bu]) ->
  let l := smul (get (matrixL (cov st)) 0 0) (ssqrt (of_Z 1)) in
  let y0 := sadd (smul a (sadd m l)) bu in
  let y1 := sadd (smul a (ssub m l)) bu in
  let mu := sadd (sadd s0 (smul w y0)) (smul w y1) in
  exists st',
    predict system st control = Done st'
    /\ mean st' = [mu]
    /\ rows (cov st') = 1 /\ cols (cov st') = 1
    /\ get (cov st') 0 0
       = sadd (ssub (sadd (sadd s0 (smul (smul w y0) y0))
                          (smul (smul w y1) y1))
                    (smul mu mu))
              (get (process_noise st) 0 0).
Proof.
  destruct st as [N M K S0 mean0 cov0 Q R w0 cp ew ecp em kg].
  destruct cov0 as [r c lc]. destruct Q as [qr qc lq].
  destruct cp as [pr pc lp].
  simpl. intros HS Hw Hm Hr Hc Qr Qc Pr Pc Hf. subst.
  unfold predict.
  evaluate. rewrite Hf. evaluate. rewrite Hf. evaluate.
  eexists. split; [reflexivity |].
  split; [reflexivity |]. split; [reflexivity |]. split; reflexivity.
Qed.

Context {Ex : ExactScalar T}.

Add Field one_state_field : scalar_field.

Lemma fold_sadd_repeat (x : T) (n : nat) :
  forall acc,
    fold_left sadd (repeat x n) acc
    = sadd acc (smul (of_Z (Z.of_nat n)) x).
Proof.
  induction n as [|n IH]; intros acc.
  - simpl. rewrite of_Z_0. ring.
  - simpl repeat. simpl fold_left. rewrite IH, of_nat_succ. ring.
Qed.

(** X13.  With exact scalars and at least one state, the constructor
    fills the 2N weights with 1/(2N) and they sum to 1. *)
Theorem weights_sum_to_one
        (state_dim input_dim measurement_dim : Z)
        (process_noise0 measurement_noise0 : Matrix T)
        (mean0 : Vector T) (cov0 : Matrix T) :
  (1 <= state_dim)%Z -> (0 <= measurement_dim)%Z ->
  (2 * (state_dim + measurement_dim) <= int_max)%Z ->
  exists st : Filter,
    CubatureKalmanFilterX state_dim input_dim measurement_dim
                          process_noise0 measurement_noise0 mean0 cov0
    = Done st
    /\ weights st
       = repeat (sdiv s1 (of_Z (2 * state_dim))) (Z.to_nat (2 * state_dim))
    /\ fold_left sadd (weights st) s0 = s1.
Proof.
  intros HN HK Hfit. unfold CubatureKalmanFilterX, sizes_fit.
  replace (0 <=? state_dim)%Z with true by (symmetry; apply Z.leb_le; lia).
  replace (0 <=? measurement_dim)%Z with true
    by (symmetry; apply Z.leb_le; lia).
  replace (2 * (state_dim + measurement_dim) <=? int_max)%Z with true
    by (symmetry; apply Z.leb_le; exact Hfit).
  cbn [andb check bind]. eexists. split; [reflexivity |]. cbn [weights].
  assert (Hs : Z.of_nat (2 * Z.to_nat state_dim) = (2 * state_dim)%Z) by lia.
  assert (Hn : 2 * Z.to_nat state_dim = Z.to_nat (2 * state_dim)) by lia.
  rewrite Hs, Hn. split; [reflexivity |].
  rewrite fold_sadd_repeat.
  replace (Z.of_nat (Z.to_nat (2 * state_dim))) with (2 * state_dim)%Z by lia.
  field. apply of_Z_pos. lia.
Qed.

(** X14.  One state, exact scalars, a transition that is affine in the
    state for the given control, [f(x, u) = a x + bu]: when the square
    root of 1 is 1 and the factor held by the factorisation squares to
    the covariance, [predict] leaves the mean [a m + bu] and the
    covariance [a^2 c + Q]. *)
Theorem predict_linear_one_state
        (input_dim measurement_dim : Z) (Q R cov0 : Matrix T)
        (m a bu : T) (control : Vector T) (st : Filter) :
  CubatureKalmanFilterX 1 input_dim measurement_dim Q R [m] cov0 = Done st ->
  rows cov0 = 1 -> cols cov0 = 1 -> rows Q = 1 -> cols Q = 1 ->
  ssqrt (of_Z 1) = s1 ->
  smul (get (matrixL cov0) 0 0) (get (matrixL cov0) 0 0) = get cov0 0 0 ->
  (forall x, f system [x] control = [sadd (smul a x) bu]) ->
  exists st',
    predict system st control = Done st'
    /\ mean st' = [sadd (smul a m) bu]
    /\ rows (cov st') = 1 /\ cols (cov st') = 1
    /\ get (cov st') 0 0 = sadd (smul (smul a a) (get cov0 0 0)) (get Q 0 0).
Proof.
  intros E Hr Hc Qr Qc Hsqrt HL Hf.
  unfold CubatureKalmanFilterX in E.
  apply bind_Done_inv in E. destruct E as (u & _ & E).
  assert (H2 : of_Z 2 <> s0) by (apply of_Z_pos; lia).
  destruct (@predict_one_state st m a bu (sdiv s1 (of_Z 2)) control)
    as (st' & Ep & Em & Er & Ec & Ev);
    try (injection E as <-; simpl; first [reflexivity | assumption]).
  exists st'. split; [exact Ep |].
  assert (Hcov : cov st = cov0) by (injection E as <-; reflexivity).
  assert (HQ : process_noise st = Q) by (injection E as <-; reflexivity).
  rewrite Hcov, HQ, Hsqrt, of_Z_two in *.
  split; [| split; [exact Er | split; [exact Ec |]]].
  - rewrite Em. apply (f_equal (fun x => [x])). field. exact H2.
  - rewrite Ev, <- HL. field. exact H2.
Qed.

End OneState.

(* ================================================================== *)
(** ** Completion of [predict], the covariance update, the mutators *)

Section Contracts.

Context {T : Type} {Sc : Scalar T} {Sv : Solvers T}.
Variable system : System T.

Ltac evaluate :=
  cbv -[sadd ssub smul sdiv ssqrt of_Z s0 s1 f h llt_compute].

Lemma singleton_of_length_1 (v : Vector T) :
  length v = 1 -> exists y, v = [y].
Proof.
  destruct v as [|y [|z v]]; simpl; intros H; try discriminate H.
  exists y. reflexivity.
Qed.

(** X16.  A filter built for one state, with a mean of one entry and a
    1 x 1 covariance and process noise, completes [predict] for every
    control on which the transition returns one-entry vectors. *)
Theorem predict_completes_on_one_state
        (input_dim measurement_dim : Z) (Q R cov0 : Matrix T) (m : T)
        (control : Vector T) (st : Filter) :
  CubatureKalmanFilterX 1 input_dim measurement_dim Q R [m] cov0 = Done st ->
  rows cov0 = 1 -> cols cov0 = 1 -> rows Q = 1 -> cols Q = 1 ->
  (forall x, length (f system [x] control) = 1) ->
  completes (predict system st control).
Proof.
  intros E Hr Hc Qr Qc Hf.
  unfold CubatureKalmanFilterX in E.
  apply bind_Done_inv in E. destruct E as (u & _ & E). injection E as <-.
  destruct cov0 as [r c lc]. destruct Q as [qr qc lq].
  simpl in Hr, Hc, Qr, Qc. subst.
  unfold completes, predict.
  evaluate.
  match goal with
  | |- context [f system [?x] control] =>
      destruct (singleton_of_length_1 _ (Hf x)) as [y0 E0]; rewrite E0
  end.
  evaluate.
  match goal with
  | |- context [f system [?x] control] =>
      destruct (singleton_of_length_1 _ (Hf x)) as [y1 E1]; rewrite E1
  end.
  evaluate. eexists. reflexivity.
Qed.

(** X17.  Lines 145 and 148 complete exactly when the gain has as many
    rows as the square augmented covariance, its columns fit the square
    expected measurement covariance, and N is at most that number of
    rows; the covariance they leave is N x N. *)
Theorem update_cov_completes_iff
        (st : Filter) (g ext_cov_pred expected_measurement_cov : Matrix T) :
  (completes (update_cov st g ext_cov_pred expected_measurement_cov)
   <-> (cols g = rows expected_measurement_cov
        /\ cols expected_measurement_cov = cols g
        /\ rows ext_cov_pred = rows g /\ cols ext_cov_pred = rows g
        /\ N_ st <= rows g))
  /\ forall c, update_cov st g ext_cov_pred expected_measurement_cov = Done c ->
               rows c = N_ st /\ cols c = N_ st.
Proof.
  split; [split |].
  - intros [c E]. unfold update_cov in E.
    apply bind_Done_inv in E. destruct E as (t & Et & E).
    apply bind_Done_inv in E. destruct E as (t2 & Et2 & E).
    apply bind_Done_inv in E. destruct E as (x & Ex & E).
    apply mmul_Done_inv in Et. apply mmul_Done_inv in Et2.
    apply mzip_Done_inv in Ex. unfold topLeftCorner in E.
    apply bind_Done_inv in E. destruct E as (u & Eu & _).
    apply check_Done_inv in Eu. apply andb_true_iff in Eu.
    destruct Eu as [Eu _]. apply Nat.leb_le in Eu.
    simpl in Et2. lia.
  - intros (A & B & C & D & E).
    unfold update_cov, mmul, msub, mzip, topLeftCorner.
    rewrite A, Nat.eqb_refl. simpl.
    rewrite B, Nat.eqb_refl. simpl.
    rewrite C, D, !Nat.eqb_refl. simpl.
    apply Nat.leb_le in E. rewrite E. simpl.
    eexists. reflexivity.
  - intros c E. unfold update_cov in E.
    apply bind_Done_inv in E. destruct E as (t & _ & E).
    apply bind_Done_inv in E. destruct E as (t2 & _ & E).
    apply bind_Done_inv in E. destruct E as (x & _ & E).
    unfold topLeftCorner in E.
    apply bind_Done_inv in E. destruct E as (u & _ & E).
    injection E as <-. split; reflexivity.
Qed.

(** X18.  The mutators chain: each is read back by its accessor, a
    repeated mutator keeps the last value, mutators of different members
    commute, and none of them changes the members [predict] keeps. *)
Theorem mutators_chain (st : Filter) (m m' : Vector T) (s p r : Matrix T) :
  getMean (setMean st m) = m
  /\ getCov (setCov st s) = s
  /\ process_noise (setProcessNoiseCov st p) = p
  /\ measurement_noise (setMeasurementNoiseCov st r) = r
  /\ setMean (setMean st m) m' = setMean st m'
  /\ setMean (setCov st s) m = setCov (setMean st m) s
  /\ setProcessNoiseCov (setMean st m) p = setMean (setProcessNoiseCov st p) m
  /\ setMeasurementNoiseCov (setCov st s) r
     = setCov (setMeasurementNoiseCov st r) s
  /\ setMeasurementNoiseCov (setProcessNoiseCov st p) r
     = setProcessNoiseCov (setMeasurementNoiseCov st r) p
  /\ weights (setMeasurementNoiseCov (setProcessNoiseCov
                (setCov (setMean st m) s) p) r) = weights st
  /\ getKalmanGain (setMeasurementNoiseCov (setProcessNoiseCov
                      (setCov (setMean st m) s) p) r) = getKalmanGain st.
Proof.
  destruct st. repeat split; reflexivity.
Qed.

End Contracts.

(* ================================================================== *)
(** ** The further properties on rational inputs *)

Module Instances.

Import QArith Qcanon Rational Scenario.
Local Open Scope Qc_scope.

(** X2 on a buffer of three rows for one state: the third row stays. *)
Lemma computeCubaturePoints_frame_witness :
  exists pts',
    computeCubaturePoints [qc 1] (matrix_of [[qc 4]])
                          (matrix_of [[qc 0]; [qc 0]; [qc 7]]) = Done pts'
    /\ rows pts' = 3%nat /\ cols pts' = 1%nat
    /\ get pts' 2 0 = get (matrix_of [[qc 0]; [qc 0]; [qc 7]]) 2 0.
Proof.
  assert (H : exists pts',
             computeCubaturePoints [qc 1] (matrix_of [[qc 4]])
                                   (matrix_of [[qc 0]; [qc 0]; [qc 7]])
             = Done pts')
    by (eexists; vm_compute; reflexivity).
  destruct H as [pts' E]. exists pts'. split; [exact E |].
  destruct (computeCubaturePoints_frame _ _ _ E) as (Hr & Hc & Hf).
  split; [exact Hr |]. split; [exact Hc |].
  apply Hf; simpl; lia.
Defined.

(** X4 on the filter of three states and one measurement. *)
Lemma augmented_cov_blocks_witness :
  exists st,
    three_by_one = Done st
    /\ rows (cov st) = N_ st /\ cols (cov st) = N_ st
    /\ rows (measurement_noise st) = K_ st
    /\ cols (measurement_noise st) = K_ st
    /\ exists m,
        augmented_cov st = Done m
        /\ rows m = (N_ st + K_ st)%nat /\ cols m = (N_ st + K_ st)%nat
        /\ forall i j, (i < N_ st + K_ st)%nat -> (j < N_ st + K_ st)%nat ->
             get m i j
             = if (i <? N_ st)%nat && (j <? N_ st)%nat then get (cov st) i j
               else if (N_ st <=? i)%nat && (N_ st <=? j)%nat
                    then get (measurement_noise st) (i - N_ st) (j - N_ st)
                    else s0.
Proof.
  eexists. split; [vm_compute; reflexivity |].
  split; [reflexivity |]. split; [reflexivity |].
  split; [reflexivity |]. split; [reflexivity |].
  apply augmented_cov_blocks; reflexivity.
Defined.

Lemma additive_keeps_length (u x : Vector Qc) :
  length x = length u -> length (f additive x u) = length u.
Proof.
  intros H. simpl. rewrite length_map, length_combine, H.
  apply Nat.min_id.
Qed.

(** X5 on two points of one state and the control 1. *)
Lemma propagate_rows_witness :
  (2 <= rows (matrix_of [[qc 3]; [qc 5]]))%nat
  /\ (forall x, length x = cols (matrix_of [[qc 3]; [qc 5]]) ->
                length (f additive x [qc 1]) = cols (matrix_of [[qc 3]; [qc 5]]))
  /\ exists pts',
      for_loop 0 2 (propagate_step additive [qc 1])
               (matrix_of [[qc 3]; [qc 5]]) = Done pts'
      /\ rows pts' = 2%nat /\ cols pts' = 1%nat
      /\ row pts' 1
         = r <- row (matrix_of [[qc 3]; [qc 5]]) 1 ;;
           Done (f additive r [qc 1]).
Proof.
  assert (H1 : (2 <= rows (matrix_of [[qc 3]; [qc 5]]))%nat) by (simpl; lia).
  assert (H2 : forall x, length x = cols (matrix_of [[qc 3]; [qc 5]]) ->
                         length (f additive x [qc 1])
                         = cols (matrix_of [[qc 3]; [qc 5]]))
    by (intros x Hx; apply (additive_keeps_length [qc 1]); exact Hx).
  split; [exact H1 |]. split; [exact H2 |].
  destruct (@propagate_rows Qc _ additive [qc 1] 2
              (matrix_of [[qc 3]; [qc 5]]) H1 H2)
    as (pts' & E & Hr & Hc & Hrow & _).
  exists pts'. split; [exact E |]. split; [exact Hr |]. split; [exact Hc |].
  apply Hrow. lia.
Defined.

(** X6 on the filter of three states and one measurement, with its
    buffer of augmented points. *)
Lemma measure_rows_witness :
  exists st,
    three_by_one = Done st
    /\ (N_ st <= cols (ext_cubature_points st))%nat
    /\ (K_ st <= cols (ext_cubature_points st))%nat
    /\ (rows (ext_cubature_points st) <= rows (expected_measurements st))%nat
    /\ cols (expected_measurements st) = K_ st
    /\ (forall x, length x = N_ st ->
                  length (h first_coordinate x) = K_ st)
    /\ exists em,
        measure first_coordinate st (ext_cubature_points st) = Done em
        /\ rows em = rows (expected_measurements st) /\ cols em = K_ st.
Proof.
  eexists. split; [vm_compute; reflexivity |].
  assert (Hh : forall x : Vector Qc, length x = 3%nat ->
                                     length (h first_coordinate x) = 1%nat).
  { intros x Hx. destruct x as [|x0 x]; [discriminate Hx | reflexivity]. }
  split; [simpl; lia |]. split; [simpl; lia |]. split; [simpl; lia |].
  split; [reflexivity |]. split; [exact Hh |].
  match goal with
  | |- exists em, measure _ ?st ?x = _ /\ _ =>
      destruct (@measure_rows Qc _ first_coordinate st x)
        as (em & E & Hr & Hc & _)
  end; try (simpl; lia); try reflexivity; try exact Hh.
  exists em. split; [exact E |]. split; [exact Hr | exact Hc].
Defined.

(** X7 on the predict step of the scenario. *)
Lemma predict_completes_only_for_one_state_witness :
  exists st st',
    scenario = Done st
    /\ predict additive st [qc 1] = Done st'
    /\ length (mean st) = 1%nat
    /\ rows (cov st) = 1%nat /\ cols (cov st) = 1%nat
    /\ rows (process_noise st) = 1%nat /\ cols (process_noise st) = 1%nat
    /\ length (mean st') = 1%nat
    /\ rows (cov st') = 1%nat /\ cols (cov st') = 1%nat.
Proof.
  assert (H : exists st st',
             scenario = Done st /\ predict additive st [qc 1] = Done st').
  { eexists. eexists.
    split; [vm_compute; reflexivity | vm_compute; reflexivity]. }
  destruct H as (st & st' & E0 & E).
  exists st, st'. split; [exact E0 |]. split; [exact E |].
  exact (@predict_completes_only_for_one_state Qc _ _ additive st st'
           [qc 1] E).
Defined.

(** X8 on the predict step of the scenario. *)
Lemma predict_changes_only_the_belief_witness :
  exists st st',
    scenario = Done st
    /\ predict additive st [qc 1] = Done st'
    /\ st' = set_prediction st (cubature_points st') (mean st') (cov st')
    /\ rows (cubature_points st') = rows (cubature_points st)
    /\ cols (cubature_points st') = cols (cubature_points st).
Proof.
  assert (H : exists st st',
             scenario = Done st /\ predict additive st [qc 1] = Done st').
  { eexists. eexists.
    split; [vm_compute; reflexivity | vm_compute; reflexivity]. }
  destruct H as (st & st' & E0 & E).
  exists st, st'. split; [exact E0 |]. split; [exact E |].
  exact (@predict_changes_only_the_belief Qc _ _ additive st st' [qc 1] E).
Defined.

(** X9 on the filter of the scenario and two points. *)
Lemma predicted_mean_value_witness :
  exists st,
    scenario = Done st
    /\ (S_ st <= length (weights st))%nat
    /\ (S_ st <= rows (matrix_of [[qc 3]; [qc 5]]))%nat
    /\ length (mean st) = cols (matrix_of [[qc 3]; [qc 5]])
    /\ predicted_mean st (matrix_of [[qc 3]; [qc 5]])
       = Done (tabulate (cols (matrix_of [[qc 3]; [qc 5]]))
                 (fun j =>
                    fold_left
                      (fun acc i =>
                         sadd acc (smul (vnth (weights st) i)
                                        (get (matrix_of [[qc 3]; [qc 5]]) i j)))
                      (seq 0 (S_ st)) s0)).
Proof.
  eexists. split; [vm_compute; reflexivity |].
  split; [simpl; lia |]. split; [simpl; lia |]. split; [reflexivity |].
  apply predicted_mean_value; simpl; lia.
Defined.

(** X10 on the filter of three states and one measurement and its
    buffers. *)
Lemma expected_mean_value_witness :
  exists st,
    three_by_one = Done st
    /\ (rows (ext_cubature_points st) <= length (ext_weights st))%nat
    /\ (rows (ext_cubature_points st) <= rows (expected_measurements st))%nat
    /\ cols (expected_measurements st) = K_ st
    /\ expected_mean st (ext_cubature_points st) (expected_measurements st)
       = Done (tabulate (K_ st)
                 (fun j =>
                    fold_left
                      (fun acc i =>
                         sadd acc (smul (vnth (ext_weights st) i)
                                        (get (expected_measurements st) i j)))
                      (seq 0 (rows (ext_cubature_points st))) s0)).
Proof.
  eexists. split; [vm_compute; reflexivity |].
  split; [simpl; lia |]. split; [simpl; lia |]. split; [reflexivity |].
  apply expected_mean_value; simpl; lia.
Defined.

(** X11 on the filter of three states and one measurement, [mean_pred]
    bound to the 1 x 1 zero matrix. *)
Lemma expected_cov_completes_only_for_one_measurement_witness :
  exists st xpts em expected_measurement_mean c,
    three_by_one = Done st
    /\ expected_cov (matrix_of [[qc 0]]) st xpts em expected_measurement_mean
       = Done c
    /\ K_ st = 1%nat
    /\ rows (matrix_of [[qc 0]]) = length expected_measurement_mean
    /\ cols (matrix_of [[qc 0]]) = 1%nat
    /\ rows (measurement_noise st) = 1%nat
    /\ cols (measurement_noise st) = 1%nat
    /\ rows c = 1%nat /\ cols c = 1%nat.
Proof.
  assert (H : exists st xm xc xpts em emm c,
             three_by_one = Done st
             /\ augmented_mean st = Done xm
             /\ augmented_cov st = Done xc
             /\ correct_sample st xm xc = Done xpts
             /\ measure first_coordinate st xpts = Done em
             /\ expected_mean st xpts em = Done emm
             /\ expected_cov (matrix_of [[qc 0]]) st xpts em emm = Done c).
  { do 7 eexists.
    split; [vm_compute; reflexivity |].
    split; [vm_compute; reflexivity |].
    split; [vm_compute; reflexivity |].
    split; [vm_compute; reflexivity |].
    split; [vm_compute; reflexivity |].
    split; [vm_compute; reflexivity |].
    vm_compute; reflexivity. }
  destruct H as (st & xm & xc & xpts & em & emm & c & E0 & _ & _ & _ & _ & _ & E).
  exists st, xpts, em, emm, c. split; [exact E0 |]. split; [exact E |].
  exact (@expected_cov_completes_only_for_one_measurement Qc _
           (matrix_of [[qc 0]]) st xpts em emm c E).
Defined.

(** X13 on the sizes of the scenario. *)
Lemma weights_sum_to_one_witness :
  (1 <= 1)%Z /\ (0 <= 1)%Z /\ (2 * (1 + 1) <= int_max)%Z
  /\ exists st : Filter,
      scenario = Done st
      /\ weights st = repeat (sdiv s1 (of_Z (2 * 1))) (Z.to_nat (2 * 1))
      /\ fold_left sadd (weights st) s0 = s1.
Proof.
  assert (H1 : (1 <= 1)%Z) by lia.
  assert (H0 : (0 <= 1)%Z) by lia.
  assert (H2 : (2 * (1 + 1) <= int_max)%Z) by (vm_compute; discriminate).
  split; [exact H1 |]. split; [exact H0 |]. split; [exact H2 |].
  exact (@weights_sum_to_one Qc _ Qc_Exact 1 1 1
           (matrix_of [[frac 1 100]]) (matrix_of [[frac 1 10]])
           [qc 0] (matrix_of [[qc 1]]) H1 H0 H2).
Defined.

(** X14 on one state with mean 1, covariance 4, process noise 1/100,
    [f(x, u) = x + u] and the control 1: mean 2, covariance 4.01. *)
Lemma predict_linear_one_state_witness :
  exists st st',
    CubatureKalmanFilterX 1 1 1 (matrix_of [[frac 1 100]])
                          (matrix_of [[frac 1 10]]) [qc 1]
                          (matrix_of [[qc 4]]) = Done st
    /\ ssqrt (of_Z 1) = s1
    /\ smul (get (matrixL (matrix_of [[qc 4]])) 0 0)
            (get (matrixL (matrix_of [[qc 4]])) 0 0)
       = get (matrix_of [[qc 4]]) 0 0
    /\ (forall x, f additive [x] [qc 1] = [sadd (smul 1 x) (qc 1)])
    /\ predict additive st [qc 1] = Done st'
    /\ mean st' = [sadd (smul 1 (qc 1)) (qc 1)]
    /\ get (cov st') 0 0
       = sadd (smul (smul 1 1) (get (matrix_of [[qc 4]]) 0 0))
              (get (matrix_of [[frac 1 100]]) 0 0).
Proof.
  assert (H0 : exists st,
             CubatureKalmanFilterX 1 1 1 (matrix_of [[frac 1 100]])
                                   (matrix_of [[frac 1 10]]) [qc 1]
                                   (matrix_of [[qc 4]]) = Done st)
    by (eexists; vm_compute; reflexivity).
  destruct H0 as [st E0].
  assert (Hs : ssqrt (of_Z 1) = (s1 : Qc))
    by (apply Qc_is_canon; vm_compute; reflexivity).
  assert (HL : smul (get (matrixL (matrix_of [[qc 4]])) 0 0)
                    (get (matrixL (matrix_of [[qc 4]])) 0 0)
               = get (matrix_of [[qc 4]]) 0 0)
    by (apply Qc_is_canon; vm_compute; reflexivity).
  assert (Hf : forall x, f additive [x] [qc 1] = [sadd (smul 1 x) (qc 1)])
    by (intros x; simpl; apply (f_equal (fun y => [y])); ring).
  destruct (@predict_linear_one_state Qc _ _ additive Qc_Exact 1 1
              (matrix_of [[frac 1 100]]) (matrix_of [[frac 1 10]])
              (matrix_of [[qc 4]]) (qc 1) 1 (qc 1) [qc 1] st
              E0 eq_refl eq_refl eq_refl eq_refl Hs HL Hf)
    as (st' & Ep & Em & _ & _ & Ev).
  exists st, st'. split; [exact E0 |]. split; [exact Hs |].
  split; [exact HL |]. split; [exact Hf |]. split; [exact Ep |].
  split; [exact Em | exact Ev].
Defined.

(** X15 on a 2 x 1 gain, the augmented mean (5, 0) and the expected
    mean (3), for the filter of the scenario. *)
Lemma update_mean_zero_innovation_witness :
  exists st,
    scenario = Done st
    /\ cols (matrix_of [[qc 1]; [qc 2]]) = length [qc 3]
    /\ rows (matrix_of [[qc 1]; [qc 2]]) = length [qc 5; qc 0]
    /\ (N_ st <= length [qc 5; qc 0])%nat
    /\ update_mean st (matrix_of [[qc 1]; [qc 2]]) [qc 5; qc 0] [qc 3] [qc 3]
       = Done (firstn (N_ st) [qc 5; qc 0]).
Proof.
  eexists. split; [vm_compute; reflexivity |].
  split; [reflexivity |]. split; [reflexivity |]. split; [simpl; lia |].
  apply update_mean_zero_innovation; [reflexivity | reflexivity | simpl; lia].
Defined.

(** X16 on the filter of the scenario and the control 1. *)
Lemma predict_completes_on_one_state_witness :
  exists st,
    scenario = Done st
    /\ (forall x, length (f additive [x] [qc 1]) = 1%nat)
    /\ completes (predict additive st [qc 1]).
Proof.
  assert (H0 : exists st, scenario = Done st)
    by (eexists; vm_compute; reflexivity).
  destruct H0 as [st E0].
  assert (Hf : forall x, length (f additive [x] [qc 1]) = 1%nat)
    by (intros x; reflexivity).
  exists st. split; [exact E0 |]. split; [exact Hf |].
  exact (@predict_completes_on_one_state Qc _ _ additive 1 1
           (matrix_of [[frac 1 100]]) (matrix_of [[frac 1 10]])
           (matrix_of [[qc 1]]) (qc 0) [qc 1] st
           E0 eq_refl eq_refl eq_refl eq_refl Hf).
Defined.

End Instances.

(* ================================================================== *)
(** ** Rounding on binary64 *)

Module Rounding.

Import PrimFloat Binary64.


End Rounding.

